(** * Static page generation: [packages/astro/src/core/build/generate.ts]

    A shallow embedding of the build orchestrator of Astro's static
    generation pass, together with the properties its specification
    states about it.

    Conventions of the embedding.
    - A JavaScript string is a [string]; indices count characters.
    - A JavaScript [Map] is an association list in insertion order
      ([Array.from(map.keys())] is observable in an error message).
    - [T | undefined] is [option T]; truthiness is the class [Truthy].
    - A thrown value is a [JsError]; a computation that may throw returns
      a [Result].
    - Arrays that are mutated in place ([linkIds], [pageNames]) live in
      the [World]; an array shared through a reference is a heap cell.
    - Code of other modules ([render], [callEndpoint], the element-set
      constructors, the output-path helpers, [import()]) is taken as a
      [Collaborators] record: the theorems hold for every instance. *)

From Stdlib Require Import String Ascii List ZArith Lia Bool.
Import ListNotations.

Local Open Scope string_scope.
Local Open Scope list_scope.

(** ** JavaScript strings *)

Module JsString.

(** [s.slice(n)] for [n >= 0]. *)
Fixpoint slice (n : nat) (s : string) : string :=
  match n, s with
  | O, _ => s
  | S _, EmptyString => EmptyString
  | S n', String _ s' => slice n' s'
  end.

(** [s.replace(/\//g, '\\')]. *)
Fixpoint slashesToBackslashes (s : string) : string :=
  match s with
  | EmptyString => EmptyString
  | String c s' =>
      String (if Ascii.eqb c "/" then "\"%char else c)
             (slashesToBackslashes s')
  end.

(** [s[0] === c]. *)
Definition firstCharIs (c : ascii) (s : string) : bool :=
  match s with
  | EmptyString => false
  | String c' _ => Ascii.eqb c' c
  end.

(** [s.startsWith(p)]. *)
Fixpoint startsWith (p s : string) : bool :=
  match p, s with
  | EmptyString, _ => true
  | String _ _, EmptyString => false
  | String a p', String b s' => Ascii.eqb a b && startsWith p' s'
  end.

(** [s.endsWith(p)] for a one-character [p]. *)
Fixpoint endsWithChar (c : ascii) (s : string) : bool :=
  match s with
  | EmptyString => false
  | String c' EmptyString => Ascii.eqb c' c
  | String _ s' => endsWithChar c s'
  end.

(** [parts.join(sep)]. *)
Fixpoint join (sep : string) (parts : list string) : string :=
  match parts with
  | [] => ""
  | [p] => p
  | p :: ps => p ++ sep ++ join sep ps
  end.

(** [s.split(c)] for a one-character separator. *)
Fixpoint split (c : ascii) (s : string) : list string :=
  match s with
  | EmptyString => [""]
  | String c' s' =>
      if Ascii.eqb c' c then "" :: split c s'
      else match split c s' with
           | [] => [String c' ""]
           | p :: ps => String c' p :: ps
           end
  end.

(** A string is falsy exactly when it is empty. *)
Definition nonEmpty (s : string) : bool :=
  match s with EmptyString => false | _ => true end.

End JsString.

(** ** JavaScript values: truthiness and [||] *)

Class Truthy (T : Type) := truthy : T -> bool.

#[global] Instance Truthy_string : Truthy string := JsString.nonEmpty.

(** [a || b] where both sides are [T | undefined]. *)
Definition orElse {T} `{Truthy T} (a b : option T) : option T :=
  match a with
  | Some v => if truthy v then Some v else b
  | None => b
  end.

(** ** JavaScript [Map<string, V>] *)

Module JsMap.

Definition t (V : Type) := list (string * V).

Fixpoint get {V} (k : string) (m : t V) : option V :=
  match m with
  | [] => None
  | (k', v) :: m' => if String.eqb k k' then Some v else get k m'
  end.

Definition has {V} (k : string) (m : t V) : bool :=
  match get k m with Some _ => true | None => false end.

Definition keys {V} (m : t V) : list string := map fst m.

End JsMap.

(** ** [throttle] (lines 46-66): the path batcher

    The generator keeps one buffer [tmp] for its whole life and yields
    that same array every time; the consumer therefore has to read a
    batch before it resumes the generator.  The state below is the
    generator's frame between two [next()] calls. *)

Module Throttle.

Inductive pc :=
| AtStart          (* not started yet *)
| YieldedInLoop    (* suspended at [yield tmp], line 52 *)
| YieldedAtEnd     (* suspended at [yield tmp], line 64 *)
| Finished.

(** [max] is a [number]; the counter [i] only takes integer values, so
    a [max] that is not an integer behaves like one that is never
    reached, for instance a negative one. *)
Record gen := mkGen {
  max : Z;
  tmp : list string;     (* the one shared buffer *)
  i : Z;
  rest : list string;    (* what the [for..of] over [inPaths] has not seen *)
  at_pc : pc
}.

(** [throttle(max, inPaths)]: the generator object, not yet started. *)
Definition throttle (max : Z) (inPaths : list string) : gen :=
  mkGen max [] 0 inPaths AtStart.

(** The [for (let path of inPaths)] loop, run until the next [yield]
    or the end of the function. *)
Fixpoint run (max : Z) (tmp : list string) (i : Z) (rest : list string)
  : gen :=
  match rest with
  | [] =>
      match tmp with
      | [] => mkGen max tmp i [] Finished
      | _ :: _ => mkGen max tmp i [] YieldedAtEnd
      end
  | path :: rest' =>
      let tmp := tmp ++ [path] in
      if (i =? max)%Z then mkGen max tmp i rest' YieldedInLoop
      else run max tmp (i + 1)%Z rest'
  end.

(** One [next()] call. *)
Definition next (g : gen) : gen :=
  match at_pc g with
  | AtStart => run (max g) [] 0 (rest g)
  | YieldedInLoop => run (max g) [] 0 (rest g)   (* tmp.length = 0; i = 0 *)
  | YieldedAtEnd => mkGen (max g) (tmp g) (i g) (rest g) Finished
  | Finished => g
  end.

Definition done (g : gen) : bool :=
  match at_pc g with Finished => true | _ => false end.

(** A generator that [next()] resumes with an empty buffer. *)
Definition resumable (g : gen) : Prop :=
  at_pc g = AtStart \/ at_pc g = YieldedInLoop.

(** [for (const paths of g) { ... paths ... }]: the contents of the
    buffer as the loop body sees it at each iteration. *)
Fixpoint forOf (fuel : nat) (g : gen) : list (list string) :=
  match fuel with
  | O => []
  | S fuel' =>
      let g' := next g in
      if done g' then [] else tmp g' :: forOf fuel' g'
  end.

(** Every [yield] consumes at least one path, so [length inPaths]
    iterations and one last [next()] are enough (see [forOf_fuel]). *)
Definition batches (max : Z) (inPaths : list string) : list (list string) :=
  forOf (S (length inPaths)) (throttle max inPaths).

(** The same batches by recursion on the input, with the two locals as
    accumulators. *)
Fixpoint batchesFrom (max : Z) (tmp : list string) (i : Z)
  (rest : list string) : list (list string) :=
  match rest with
  | [] => match tmp with [] => [] | _ :: _ => [tmp] end
  | path :: rest' =>
      let tmp := tmp ++ [path] in
      if (i =? max)%Z then tmp :: batchesFrom max [] 0 rest'
      else batchesFrom max tmp (i + 1)%Z rest'
  end.

(** [Array.from(g)]: the generator is drained first, so every
    collected batch is the one buffer in its final state. *)
Fixpoint drain (fuel : nat) (g : gen) : nat * gen :=
  match fuel with
  | O => (O, g)
  | S fuel' =>
      let g' := next g in
      if done g' then (O, g')
      else let '(n, g'') := drain fuel' g' in (S n, g'')
  end.

Definition arrayFrom (max : Z) (inPaths : list string)
  : list (list string) :=
  let '(n, g) := drain (S (length inPaths)) (throttle max inPaths) in
  repeat (tmp g) n.

(** What the buffer holds when the generator function has returned:
    the paths pushed after the last [yield] of the loop. *)
Fixpoint leftover (max : Z) (tmp : list string) (i : Z)
  (rest : list string) : list string :=
  match rest with
  | [] => tmp
  | path :: rest' =>
      let tmp := tmp ++ [path] in
      if (i =? max)%Z then leftover max [] 0 rest'
      else leftover max tmp (i + 1)%Z rest'
  end.

End Throttle.

(** ** Node.js library functions

    [url.fileURLToPath] and [path.posix.relative] belong to the
    platform, not to this repository.  The embedding takes them as a
    record; [Posix.node] below is an executable model of them, used to
    evaluate the code on concrete inputs. *)

Record Node := mkNode {
  fileURLToPath : string -> string;
  posix_relative : string -> string -> string
}.

Module Posix.
Import JsString.

(** [path.posix.normalize] on the segments of an absolute path: empty
    and [.] segments vanish, [..] removes the segment before it and is
    dropped at the root. *)
Fixpoint normalizeSegments (acc : list string) (segs : list string)
  : list string :=
  match segs with
  | [] => rev acc
  | seg :: segs' =>
      if String.eqb seg "" then normalizeSegments acc segs'
      else if String.eqb seg "." then normalizeSegments acc segs'
      else if String.eqb seg ".."
           then normalizeSegments (tl acc) segs'
           else normalizeSegments (seg :: acc) segs'
  end.

(** [path.posix.resolve(p)] as the list of segments below the root;
    a relative [p] is resolved against the working directory. *)
Definition resolveSegments (cwd p : string) : list string :=
  let abs := if firstCharIs "/" p then p else (cwd ++ "/" ++ p)%string in
  normalizeSegments [] (split "/" abs).

Fixpoint dropCommon (from to : list string) : list string * list string :=
  match from, to with
  | f :: from', t :: to' =>
      if String.eqb f t then dropCommon from' to' else (from, to)
  | _, _ => (from, to)
  end.

(** [path.posix.relative(from, to)]: one [..] for every segment of
    [from] below the common ancestor, then what is left of [to]. *)
Definition relative (cwd from to : string) : string :=
  let '(up, down) :=
    dropCommon (resolveSegments cwd from) (resolveSegments cwd to) in
  join "/" (map (fun _ => "..") up ++ down).

(** [url.fileURLToPath] on a [file://] URL of a POSIX path without
    escapes: the path is what follows [file://]. *)
Definition fileURLToPath (url : string) : string := slice 7 url.

Definition node : Node := mkNode fileURLToPath (relative "/").

End Posix.

(** ** Data model *)

Inductive JsError := Error (message : string).

Inductive Result (A : Type) :=
| Ok (a : A)
| Throw (e : JsError).
Arguments Ok {A} a.
Arguments Throw {A} e.

(** Modelled from the spec: [RouteData] and [PageBuildData] are declared
    in [./types] and [@types/astro]; a page record has a route with a
    kind and a component, and the ordered paths to render. *)
Inductive RouteType := page | endpoint.

Definition RouteType_eqb (a b : RouteType) : bool :=
  match a, b with
  | page, page | endpoint, endpoint => true
  | _, _ => false
  end.

Record RouteData := mkRouteData {
  route_type : RouteType;
  component : string
}.

Record PageBuildData := mkPageBuildData {
  paths : list string;
  route : RouteData
}.

(** An object is always truthy. *)
#[global] Instance Truthy_PageBuildData : Truthy PageBuildData :=
  fun _ => true.

(** A [string[]] shared by reference: the address of a heap cell.  An
    array is truthy even when it is empty. *)
Inductive ArrayRef := Ref (addr : nat).

Definition addr (r : ArrayRef) : nat := let 'Ref n := r in n.

#[global] Instance Truthy_ArrayRef : Truthy ArrayRef := fun _ => true.

(** Rollup's [OutputAsset | OutputChunk], as far as this file reads
    them. *)
Inductive OutputType := chunk | asset.

Record Output := mkOutput {
  output_type : OutputType;
  fileName : string;
  facadeModuleId : option string     (* [string | null], chunks only *)
}.

(** [BuildInternals], as far as this file reads it. *)
Record BuildInternals := mkInternals {
  entrySpecifierToBundleMap : JsMap.t string;
  facadeIdToAssetsMap : JsMap.t ArrayRef;
  facadeIdToHoistedEntryMap : JsMap.t string
}.

Record AstroRenderer := mkRenderer {
  renderer_name : string;
  serverEntrypoint : string
}.

Record InjectedScript := mkScript {
  stage : string;
  content : string
}.

(** [AstroConfig], as far as this file reads it. *)
Record AstroConfig := mkConfig {
  projectRoot : string;                   (* a [file://] URL *)
  buildOptions_site : option string;
  buildOptions_experimentalSsr : bool;
  ctx_renderers : list AstroRenderer;
  ctx_scripts : list InjectedScript
}.

Record SSRElement := mkElement {
  props : list (string * string);
  children : string
}.

(** ** [getByFacadeId] (lines 37-43) *)

Definition getByFacadeId {T} `{Truthy T} (facadeId : string)
  (map : JsMap.t T) : option T :=
  orElse (JsMap.get facadeId map)
         (* Windows the facadeId has forward slashes, no idea why *)
         (JsMap.get (JsString.slashesToBackslashes facadeId) map).

(** ** The chunk classifier (lines 68-85) *)

(** Modelled from the spec: [prependForwardSlash] of [core/path.js]
    gives the forward-slash-prefixed form of a root-relative path. *)
Definition prependForwardSlash (path : string) : string :=
  if JsString.firstCharIs "/" path then path else ("/" ++ path)%string.

Section Classifier.
Variable node : Node.

Definition rootRelativeFacadeId (facadeId : string)
  (astroConfig : AstroConfig) : string :=
  JsString.slice
    (String.length (fileURLToPath node (projectRoot astroConfig)))
    facadeId.

Definition chunkIsPage (astroConfig : AstroConfig) (output : Output)
  (internals : BuildInternals) : bool :=
  match output_type output with
  | asset => false
  | chunk =>
      match facadeModuleId output with
      | Some facade =>
          if truthy facade then
            let facadeToEntryId :=
              prependForwardSlash
                (rootRelativeFacadeId facade astroConfig) in
            JsMap.has facadeToEntryId (entrySpecifierToBundleMap internals)
          else false
      | None => false
      end
  end.

(** ** [resolve] (lines 209-225), the closure over [internals] and
    [pathname] handed to the renderer *)

Definition resolve (internals : BuildInternals) (pathname : string)
  (specifier : string) : Result string :=
  match JsMap.get specifier (entrySpecifierToBundleMap internals) with
  | None =>
      (* If no "astro:scripts/before-hydration.js" script exists in
         the build, then we can assume that no before-hydration
         scripts are needed.  Return this as placeholder, which will
         be ignored by the browser. *)
      if String.eqb specifier "astro:scripts/before-hydration.js"
      then Ok "data:text/javascript;charset=utf-8,//[no before-hydration script]"
      else Throw (Error ("Cannot find the built path for " ++ specifier)%string)
  | Some hashedFilePath =>
      let relPath : string :=
        posix_relative node pathname ("/" ++ hashedFilePath)%string in
      let fullyRelativePath : string :=
        if JsString.firstCharIs "." relPath then relPath
        else ("./" ++ relPath)%string in
      Ok fullyRelativePath
  end.

End Classifier.

(** ** The world the generation runs in

    What this file writes to the logger, the successful file-system
    operations, the [opts.pageNames] array, the heap of shared
    [string[]] objects, and the state of the collaborators. *)

Inductive LogEntry :=
| LogInfo (message : string)
| LogDebug (type message : string)
| LogError (type message : string) (err : JsError).

Inductive FsOp :=
| Mkdir (path : string)                (* [{ recursive: true }] *)
| WriteFile (file data : string).      (* ['utf-8'] *)

Inductive RenderResult :=
| RenderHtml (html : string)           (* [{ type: 'html', html }] *)
| RenderResponse.                      (* [{ type: 'response', ... }] *)

Inductive EndpointCallResult :=
| EndpointSimple (body : string)       (* [{ type: 'simple', body }] *)
| EndpointResponse.                    (* [{ type: 'response', ... }] *)

(** [const MAX_CONCURRENT_RENDERS = 1] (line 25). *)
Definition MAX_CONCURRENT_RENDERS : Z := 1.

Section Generate.
Variables Sigma ComponentInstance RendererSsr : Type.

Record World := mkWorld {
  logs : list LogEntry;
  fsOps : list FsOp;
  pageNames : list string;
  arrays : list (list string);
  ext : Sigma
}.

(** Code of this file: state and exceptions. *)
Definition M (A : Type) := World -> Result A * World.

(** Code of a collaborator: its own state and exceptions. *)
Definition Ext (A : Type) := Sigma -> Result A * Sigma.

Definition ret {A} (a : A) : M A := fun w => (Ok a, w).

Definition bind {A B} (m : M A) (k : A -> M B) : M B :=
  fun w =>
    match m w with
    | (Ok a, w') => k a w'
    | (Throw e, w') => (Throw e, w')
    end.

Definition throw {A} (e : JsError) : M A := fun w => (Throw e, w).

(** [try { m } catch (err) { h err }]. *)
Definition tryCatch {A} (m : M A) (h : JsError -> M A) : M A :=
  fun w =>
    match m w with
    | (Ok a, w') => (Ok a, w')
    | (Throw e, w') => h e w'
    end.

Definition liftResult {A} (r : Result A) : M A := fun w => (r, w).

Definition liftExt {A} (c : Ext A) : M A :=
  fun w =>
    let '(r, s) := c (ext w) in
    (r, mkWorld (logs w) (fsOps w) (pageNames w) (arrays w) s).

(** Calling an async function without awaiting it: the call itself
    never throws, its outcome is the state of the promise. *)
Definition settle {A} (m : M A) : M (Result A) :=
  fun w => let '(r, w') := m w in (Ok r, w').

Local Notation "x <- c1 ;; c2" := (bind c1 (fun x => c2))
  (at level 61, c1 at next level, right associativity).
Local Notation "c1 ;; c2" := (bind c1 (fun _ => c2))
  (at level 61, right associativity).

(** [for (const x of xs) { body x }]. *)
Fixpoint forEach {A} (xs : list A) (body : A -> M unit) : M unit :=
  match xs with
  | [] => ret tt
  | x :: xs' => body x ;; forEach xs' body
  end.

(** [xs.map(f)] where calling [f] has effects. *)
Fixpoint mapM {A B} (f : A -> M B) (xs : list A) : M (list B) :=
  match xs with
  | [] => ret []
  | x :: xs' => y <- f x ;; ys <- mapM f xs' ;; ret (y :: ys)
  end.

(** [await Promise.all(promises)]: the values, or the first
    rejection.  The promises are settled when they are awaited here, so
    "first" is by position; where a later promise can reject earlier in
    time than one before it, only the fact of the rejection is the
    code's. *)
Fixpoint promiseAll {A} (promises : list (Result A)) : Result (list A) :=
  match promises with
  | [] => Ok []
  | Throw e :: _ => Throw e
  | Ok a :: promises' =>
      match promiseAll promises' with
      | Ok l => Ok (a :: l)
      | Throw e => Throw e
      end
  end.

(** *** Logger ([../../core/logger.js]) *)

Definition log (entry : LogEntry) : M unit :=
  fun w =>
    (Ok tt, mkWorld (logs w ++ [entry]) (fsOps w) (pageNames w)
                    (arrays w) (ext w)).

Definition info (message : string) : M unit := log (LogInfo message).
Definition debug (type message : string) : M unit :=
  log (LogDebug type message).
Definition error (type message : string) (err : JsError) : M unit :=
  log (LogError type message err).

(** *** Shared arrays *)

Fixpoint setNth {A} (n : nat) (a : A) (l : list A) : list A :=
  match n, l with
  | _, [] => []
  | O, _ :: l' => a :: l'
  | S n', x :: l' => x :: setNth n' a l'
  end.

(** The array behind a reference; every reference the code holds was
    allocated, a dangling one reads as the empty array. *)
Definition deref (r : ArrayRef) (w : World) : list string :=
  nth (addr r) (arrays w) [].

(** [[]]: a fresh array. *)
Definition newArray (a : list string) : M ArrayRef :=
  fun w =>
    (Ok (Ref (length (arrays w))),
     mkWorld (logs w) (fsOps w) (pageNames w) (arrays w ++ [a]) (ext w)).

(** [array.reverse()]: reverses in place and returns the same
    array; the result here is its contents after the call. *)
Definition reverse (r : ArrayRef) : M (list string) :=
  fun w =>
    let reversed := rev (deref r w) in
    (Ok reversed,
     mkWorld (logs w) (fsOps w) (pageNames w)
             (setNth (addr r) reversed (arrays w)) (ext w)).

(** *** Records of this file *)

Record SSRLoadedRenderer := mkLoadedRenderer {
  renderer : AstroRenderer;
  ssr : RendererSsr
}.

(** [StaticBuildOptions]; [opts.pageNames] is in the world, and
    [logging] and [routeCache] are only handed on to the renderer. *)
Record StaticBuildOptions := mkBuildOptions {
  astroConfig : AstroConfig;
  origin : string
}.

(** [interface GeneratePathOptions] (lines 160-167). *)
Record GeneratePathOptions := mkGeneratePathOptions {
  pageData : PageBuildData;
  internals : BuildInternals;
  linkIds : ArrayRef;
  hoistedId : option string;
  mod_ : ComponentInstance;
  renderers : list SSRLoadedRenderer
}.

(** [RenderOptions], without the fields that are copied from [opts]
    unread ([logging], [markdownRender], [routeCache]) and the empty
    [headers]. *)
Record RenderOptions := mkRenderOptions {
  ro_legacyBuild : bool;
  ro_links : list SSRElement;
  ro_mod : ComponentInstance;
  ro_origin : string;
  ro_pathname : string;
  ro_scripts : list SSRElement;
  ro_renderers : list SSRLoadedRenderer;
  ro_resolve : string -> Result string;
  ro_method : string;
  ro_route : RouteData;
  ro_site : option string;
  ro_ssr : bool
}.

(** *** The collaborators

    Functions of other modules and of the platform.  Any of them may
    throw.  The element-set constructors are given the contents of the
    array they are called with and leave the array alone; the calls
    that are awaited work on the state [Sigma] of their own. *)

Record Collaborators := mkCollaborators {
  (* ../render/ssr-element.js *)
  createLinkStylesheetElementSet :
    list string -> option string -> Result (list SSRElement);
  createModuleScriptElementWithSrcSet :
    list string -> option string -> Result (list SSRElement);
  (* ../render/core.js and ../endpoint/index.js *)
  render : RenderOptions -> Ext RenderResult;
  callEndpoint : ComponentInstance -> RenderOptions -> Ext EndpointCallResult;
  (* ./common.js *)
  getOutRoot : AstroConfig -> Result string;
  getOutFolder : AstroConfig -> string -> RouteType -> Result string;
  getOutFile : AstroConfig -> string -> string -> RouteType -> Result string;
  (* ../../core/util.js *)
  resolveDependency : string -> AstroConfig -> Result string;
  (* the platform: [new URL(rel, base).toString()], [import()], [fs] *)
  newURL : string -> string -> Result string;
  importRenderer : string -> Ext RendererSsr;
  importPage : string -> Ext ComponentInstance;
  fs_mkdir : string -> Ext unit;
  fs_writeFile : string -> string -> Ext unit
}.

Variable node : Node.
Variable C : Collaborators.

(** [fs.promises.mkdir] and [fs.promises.writeFile]: an operation
    that succeeds is recorded. *)
Definition record (op : FsOp) : M unit :=
  fun w =>
    (Ok tt, mkWorld (logs w) (fsOps w ++ [op]) (pageNames w)
                    (arrays w) (ext w)).

Definition mkdir (path : string) : M unit :=
  liftExt (fs_mkdir C path) ;; record (Mkdir path).

Definition writeFile (file data : string) : M unit :=
  liftExt (fs_writeFile C file data) ;; record (WriteFile file data).

(** *** [loadRenderer], [loadRenderers] (lines 28-35) *)

Definition loadRenderer (renderer : AstroRenderer)
  (config : AstroConfig) : M SSRLoadedRenderer :=
  entry <- liftResult (resolveDependency C (serverEntrypoint renderer) config) ;;
  mod_default <- liftExt (importRenderer C entry) ;;
  ret (mkLoadedRenderer renderer mod_default).

Definition loadRenderers (config : AstroConfig)
  : M (list SSRLoadedRenderer) :=
  promises <- mapM (fun r => settle (loadRenderer r config))
                   (ctx_renderers config) ;;
  liftResult (promiseAll promises).

(** *** [addPageName] (lines 169-171) *)

(** [pathname.replace(/\/?$/, '/')]. *)
Definition withTrailingSlash (pathname : string) : string :=
  if JsString.endsWithChar "/" pathname then pathname
  else (pathname ++ "/")%string.

(** [s.replace(/^\//, '')]. *)
Definition withoutLeadingSlash (s : string) : string :=
  if JsString.firstCharIs "/" s then JsString.slice 1 s else s.

Definition addPageName (pathname : string) : M unit :=
  fun w =>
    (Ok tt,
     mkWorld (logs w) (fsOps w)
             (pageNames w
              ++ [withoutLeadingSlash (withTrailingSlash pathname)])
             (arrays w) (ext w)).

(** *** [generatePath] (lines 173-259) *)

(** Lines 188-196: the scripts injected by the configuration. *)
Fixpoint addInjectedScripts (injected : list InjectedScript)
  (scripts : list SSRElement) : list SSRElement :=
  match injected with
  | [] => scripts
  | script :: injected' =>
      addInjectedScripts injected'
        (if String.eqb (stage script) "head-inline"
         then scripts ++ [mkElement [] (content script)]
         else scripts)
  end.

(** Lines 184-196: the element sets, given the contents of [linkIds]
    after [linkIds.reverse()]. *)
Definition elementSets (opts : StaticBuildOptions)
  (gopts : GeneratePathOptions) (reversed : list string)
  : Result (list SSRElement * list SSRElement) :=
  let site := buildOptions_site (astroConfig opts) in
  match createLinkStylesheetElementSet C reversed site with
  | Throw e => Throw e
  | Ok links =>
      match createModuleScriptElementWithSrcSet C
              (match hoistedId gopts with
               | Some h => if truthy h then [h] else []
               | None => []
               end) site with
      | Throw e => Throw e
      | Ok scripts =>
          (* Add all injected scripts to the page. *)
          Ok (links,
              addInjectedScripts (ctx_scripts (astroConfig opts)) scripts)
      end
  end.

(** Lines 174-196: everything before the [try]. *)
Definition generatePathHead (pathname : string)
  (opts : StaticBuildOptions) (gopts : GeneratePathOptions)
  : M (list SSRElement * list SSRElement) :=
  (* This adds the page name to the array so it can be shown as part
     of stats. *)
  (if RouteType_eqb (route_type (route (pageData gopts))) page
   then addPageName pathname else ret tt) ;;
  debug "build" ("Generating: " ++ pathname)%string ;;
  reversed <- reverse (linkIds gopts) ;;
  liftResult (elementSets opts gopts reversed).

(** Lines 199-232. *)
Definition renderOptions (pathname : string) (opts : StaticBuildOptions)
  (gopts : GeneratePathOptions) (links scripts : list SSRElement)
  : RenderOptions :=
  {| ro_legacyBuild := false;
     ro_links := links;
     ro_mod := mod_ gopts;
     ro_origin := origin opts;
     ro_pathname := pathname;
     ro_scripts := scripts;
     ro_renderers := renderers gopts;
     ro_resolve := resolve node (internals gopts) pathname;
     ro_method := "GET";
     ro_route := route (pageData gopts);
     ro_site := buildOptions_site (astroConfig opts);
     ro_ssr := buildOptions_experimentalSsr (astroConfig opts) |}.

(** Lines 199-255: the body of the [try].  [None] for the body is the
    early [return] of line 247. *)
Definition generatePathTry (pathname : string)
  (opts : StaticBuildOptions) (gopts : GeneratePathOptions)
  (links scripts : list SSRElement) : M unit :=
  let options := renderOptions pathname opts gopts links scripts in
  let routeType := route_type (route (pageData gopts)) in
  body <-
    (if RouteType_eqb routeType endpoint then
       result <- liftExt (callEndpoint C (mod_ gopts) options) ;;
       match result with
       | EndpointResponse =>
           throw (Error "Returning a Response from an endpoint is not supported in SSG mode.")
       | EndpointSimple body => ret (Some body)
       end
     else
       result <- liftExt (render C options) ;;
       (* If there's a redirect or something, just do nothing. *)
       match result with
       | RenderHtml html => ret (Some html)
       | RenderResponse => ret None
       end) ;;
  match body with
  | None => ret tt
  | Some body =>
      outFolder <- liftResult
        (getOutFolder C (astroConfig opts) pathname routeType) ;;
      outFile <- liftResult
        (getOutFile C (astroConfig opts) outFolder pathname routeType) ;;
      mkdir outFolder ;;
      writeFile outFile body
  end.

Definition generatePath (pathname : string) (opts : StaticBuildOptions)
  (gopts : GeneratePathOptions) : M unit :=
  sets <- generatePathHead pathname opts gopts ;;
  let '(links, scripts) := sets in
  tryCatch
    (generatePathTry pathname opts gopts links scripts)
    (fun err => error "build" "Error rendering:" err).

(** *** [generatePage] (lines 100-158)

    The calls of one batch are started in order and awaited together.
    Each call is run here to its end before the next one starts;
    what a call does before its first [await] (the page name, the
    reversal, the element sets) happens in this order under every
    schedule.  Of the progress lines the text is kept; colours, blank
    lines and timings are left out and the bar is written [|]. *)

Definition missingPageBuildData (facadeId : string)
  (facadeIdToPageDataMap : JsMap.t PageBuildData) : JsError :=
  Error ("Unable to find a PageBuildData for the Astro page: "
         ++ facadeId ++ ". There are the PageBuildDatas we have "
         ++ JsString.join ", " (JsMap.keys facadeIdToPageDataMap))%string.

Definition generateBatch (opts : StaticBuildOptions)
  (generationOptions : GeneratePathOptions) (paths : list string)
  : M unit :=
  renderPromises <-
    mapM (fun path => settle (generatePath path opts generationOptions))
         paths ;;
  (* This blocks generating more paths until these 10 complete. *)
  liftResult (promiseAll renderPromises) ;;
  forEach paths (fun path => info ("    | " ++ path)%string).

Definition generatePage (output : Output) (opts : StaticBuildOptions)
  (internals : BuildInternals)
  (facadeIdToPageDataMap : JsMap.t PageBuildData)
  (renderers : list SSRLoadedRenderer) : M unit :=
  outRoot <- liftResult (getOutRoot C (astroConfig opts)) ;;
  url <- liftResult (newURL C ("./" ++ fileName output)%string outRoot) ;;
  match facadeModuleId output with
  | None =>
      (* [output.facadeModuleId as string] on [null]: the first
         [map.get] finds nothing and [facadeId.replace] fails. *)
      throw (Error "TypeError: Cannot read properties of null (reading 'replace')")
  | Some facadeId =>
      match getByFacadeId facadeId facadeIdToPageDataMap with
      | None => throw (missingPageBuildData facadeId facadeIdToPageDataMap)
      | Some pageData =>
          linkIds <-
            match getByFacadeId facadeId (facadeIdToAssetsMap internals) with
            | Some ids => ret ids
            | None => newArray []
            end ;;
          let hoistedId :=
            orElse
              (getByFacadeId facadeId (facadeIdToHoistedEntryMap internals))
              None in
          compiledModule <- liftExt (importPage C url) ;;
          let generationOptions :=
            {| pageData := pageData;
               internals := internals;
               linkIds := linkIds;
               hoistedId := hoistedId;
               mod_ := compiledModule;
               renderers := renderers |} in
          let icon :=
            if RouteType_eqb (route_type (route pageData)) page
            then "</>" else "{-}" in
          info (icon ++ " " ++ component (route pageData))%string ;;
          (* Throttle the paths to avoid overloading the CPU with too
             many tasks. *)
          forEach (Throttle.batches MAX_CONCURRENT_RENDERS (paths pageData))
                  (generateBatch opts generationOptions)
      end
  end.

(** *** [generatePages] (lines 87-98) *)

Definition generatePages (result : list Output) (opts : StaticBuildOptions)
  (internals : BuildInternals)
  (facadeIdToPageDataMap : JsMap.t PageBuildData) : M unit :=
  info " generating static routes " ;;
  (* Get renderers to be shared for each page generation. *)
  renderers <- loadRenderers (astroConfig opts) ;;
  forEach result
    (fun output =>
       if chunkIsPage node (astroConfig opts) output internals
       then generatePage output opts internals facadeIdToPageDataMap
                         renderers
       else ret tt).

End Generate.

Arguments mkWorld {Sigma} logs fsOps pageNames arrays ext.
Arguments logs {Sigma} w.
Arguments fsOps {Sigma} w.
Arguments pageNames {Sigma} w.
Arguments arrays {Sigma} w.
Arguments ext {Sigma} w.
Arguments ret {Sigma A} a w.
Arguments bind {Sigma A B} m k w.
Arguments throw {Sigma A} e w.
Arguments tryCatch {Sigma A} m h w.
Arguments liftResult {Sigma A} r w.
Arguments liftExt {Sigma A} c w.
Arguments settle {Sigma A} m w.
Arguments forEach {Sigma A} xs body w.
Arguments mapM {Sigma A B} f xs w.
Arguments log {Sigma} entry w.
Arguments info {Sigma} message w.
Arguments debug {Sigma} type message w.
Arguments error {Sigma} type message err w.
Arguments deref {Sigma} r w.
Arguments newArray {Sigma} a w.
Arguments reverse {Sigma} r w.
Arguments record {Sigma} op w.
Arguments addPageName {Sigma} pathname w.
Arguments mkLoadedRenderer {RendererSsr} renderer ssr.
Arguments mkGeneratePathOptions {ComponentInstance RendererSsr}.
Arguments pageData {ComponentInstance RendererSsr} g.
Arguments internals {ComponentInstance RendererSsr} g.
Arguments linkIds {ComponentInstance RendererSsr} g.
Arguments hoistedId {ComponentInstance RendererSsr} g.
Arguments mod_ {ComponentInstance RendererSsr} g.
Arguments renderers {ComponentInstance RendererSsr} g.
Arguments mkRenderOptions {ComponentInstance RendererSsr}.
Arguments ro_links {ComponentInstance RendererSsr} r.
Arguments ro_scripts {ComponentInstance RendererSsr} r.
Arguments ro_resolve {ComponentInstance RendererSsr} r.
Arguments ro_pathname {ComponentInstance RendererSsr} r.
Arguments mkCollaborators {Sigma ComponentInstance RendererSsr}.
Arguments createLinkStylesheetElementSet {Sigma ComponentInstance RendererSsr}.
Arguments createModuleScriptElementWithSrcSet
  {Sigma ComponentInstance RendererSsr}.
Arguments render {Sigma ComponentInstance RendererSsr}.
Arguments callEndpoint {Sigma ComponentInstance RendererSsr}.
Arguments getOutRoot {Sigma ComponentInstance RendererSsr}.
Arguments getOutFolder {Sigma ComponentInstance RendererSsr}.
Arguments getOutFile {Sigma ComponentInstance RendererSsr}.
Arguments resolveDependency {Sigma ComponentInstance RendererSsr}.
Arguments newURL {Sigma ComponentInstance RendererSsr}.
Arguments importRenderer {Sigma ComponentInstance RendererSsr}.
Arguments importPage {Sigma ComponentInstance RendererSsr}.
Arguments fs_mkdir {Sigma ComponentInstance RendererSsr}.
Arguments fs_writeFile {Sigma ComponentInstance RendererSsr}.
Arguments mkdir {Sigma ComponentInstance RendererSsr} C path w.
Arguments writeFile {Sigma ComponentInstance RendererSsr} C file data w.
Arguments loadRenderer {Sigma ComponentInstance RendererSsr} C.
Arguments loadRenderers {Sigma ComponentInstance RendererSsr} C.
Arguments elementSets {Sigma ComponentInstance RendererSsr} C.
Arguments generatePathHead {Sigma ComponentInstance RendererSsr} C.
Arguments renderOptions {ComponentInstance RendererSsr} node.
Arguments generatePathTry {Sigma ComponentInstance RendererSsr} node C.
Arguments generatePath {Sigma ComponentInstance RendererSsr} node C.
Arguments generateBatch {Sigma ComponentInstance RendererSsr} node C.
Arguments generatePage {Sigma ComponentInstance RendererSsr} node C.
Arguments generatePages {Sigma ComponentInstance RendererSsr} node C.


(** ** What the specification asks of a resolved path *)

(** A relative reference that begins with [./] or [../]. *)
Definition beginsDotSlash (s : string) : bool :=
  JsString.startsWith "./" s || JsString.startsWith "../" s.

(** No segment of a path begins with a dot: no [.], no [..], no
    dot-file. *)
Definition noDot (seg : string) : Prop :=
  JsString.firstCharIs "." seg = false.

Definition noDotSegments (p : string) : bool :=
  forallb (fun seg => negb (JsString.firstCharIs "." seg))
          (JsString.split "/" p).

(** ** Concrete inputs

    A small project rooted at [/proj/], used to evaluate the code. *)

Module Fixtures.

Definition indexPage : PageBuildData :=
  mkPageBuildData ["/"; "/about"]
                  (mkRouteData page "src/pages/index.astro").

Definition apiPage : PageBuildData :=
  mkPageBuildData ["/api.json"]
                  (mkRouteData endpoint "src/pages/api.json.ts").

Definition config : AstroConfig :=
  mkConfig "file:///proj/" None false [] [].

Definition opts : StaticBuildOptions := mkBuildOptions config "".

Definition indexChunk : Output :=
  mkOutput chunk "index.js" (Some "/proj/src/pages/index.astro").


(** One stylesheet array at address 0. *)
Definition siteInternals : BuildInternals :=
  mkInternals
    [("/src/pages/index.astro", "assets/index.abc.js");
     ("/src/hidden.js", ".hidden.js")]
    [("/proj/src/pages/index.astro", Ref 0)]
    [].

Definition noInternals : BuildInternals := mkInternals [] [] [].

(** The page record filed under the forward-slash form of its facade
    identifier, and under the backslash form. *)
Definition forwardKeyMap : JsMap.t PageBuildData :=
  [("/proj/src/pages/index.astro", indexPage)].

Definition backslashKeyMap : JsMap.t PageBuildData :=
  [("\proj\src\pages\index.astro", indexPage)].

(** A facade index that knows another page only. *)
Definition aboutOnlyMap : JsMap.t PageBuildData :=
  [("/proj/src/pages/about.astro",
    mkPageBuildData ["/about"] (mkRouteData page "src/pages/about.astro"))].

(** Collaborators without state.  The stylesheet links are built as
    [ssr-element.js] builds them, one element per identifier in the
    order of the array, and fail on a site that is not a URL; the
    endpoint handler answers with a response object. *)
Definition linkElement (href : string) : SSRElement :=
  mkElement [("rel", "stylesheet"); ("href", href)] "".

Definition scriptElement (src : string) : SSRElement :=
  mkElement [("type", "module"); ("src", src)] "".

Definition collaborators : Collaborators unit unit unit :=
  {| createLinkStylesheetElementSet := fun ids site =>
       match site with
       | Some "not a url" => Throw (Error "TypeError: Invalid URL")
       | _ => Ok (map linkElement ids)
       end;
     createModuleScriptElementWithSrcSet := fun ids _ =>
       Ok (map scriptElement ids);
     render := fun _ s => (Ok (RenderHtml "<html></html>"), s);
     callEndpoint := fun _ _ s => (Ok EndpointResponse, s);
     getOutRoot := fun _ => Ok "file:///proj/dist/";
     getOutFolder := fun _ pathname _ => Ok ("/proj/dist" ++ pathname)%string;
     getOutFile := fun _ outFolder _ _ => Ok (outFolder ++ "/index.html")%string;
     resolveDependency := fun entry _ => Ok entry;
     newURL := fun rel base => Ok (base ++ rel)%string;
     importRenderer := fun _ s => (Ok tt, s);
     importPage := fun _ s => (Ok tt, s);
     fs_mkdir := fun _ s => (Ok tt, s);
     fs_writeFile := fun _ _ s => (Ok tt, s) |}.

Definition badSiteConfig : AstroConfig :=
  mkConfig "file:///proj/" (Some "not a url") false [] [].

Definition pathOptions (data : PageBuildData)
  : GeneratePathOptions unit unit :=
  {| pageData := data;
     internals := siteInternals;
     linkIds := Ref 0;
     hoistedId := None;
     mod_ := tt;
     renderers := [] |}.

(** A world whose heap holds the stylesheets of the index page. *)
Definition world : World unit :=
  mkWorld [] [] [] [["a.css"; "b.css"]] tt.

End Fixtures.

(** ** Scenarios

    Collaborators of the concrete project whose awaited calls have a
    chosen outcome.  Their state counts the awaited calls. *)

Module Scenarios.
Import Fixtures.

Definition scenario (rendered : Result RenderResult)
  (answered : Result EndpointCallResult) (madeDir : Result unit)
  (imported : Result unit) (dependency : Result string)
  : Collaborators nat unit unit :=
  {| createLinkStylesheetElementSet := fun ids _ => Ok (map linkElement ids);
     createModuleScriptElementWithSrcSet := fun ids _ =>
       Ok (map scriptElement ids);
     render := fun _ s => (rendered, S s);
     callEndpoint := fun _ _ s => (answered, S s);
     getOutRoot := fun _ => Ok "file:///proj/dist/";
     getOutFolder := fun _ pathname _ => Ok ("/proj/dist" ++ pathname)%string;
     getOutFile := fun _ outFolder _ _ => Ok (outFolder ++ "/index.html")%string;
     resolveDependency := fun _ _ => dependency;
     newURL := fun rel base => Ok (base ++ rel)%string;
     importRenderer := fun _ s => (Ok tt, S s);
     importPage := fun _ s => (imported, S s);
     fs_mkdir := fun _ s => (madeDir, S s);
     fs_writeFile := fun _ _ s => (Ok tt, S s) |}.

(** Everything succeeds: pages render to HTML, endpoints answer with a
    body. *)
Definition allGood : Collaborators nat unit unit :=
  scenario (Ok (RenderHtml "<html></html>")) (Ok (EndpointSimple "{}"))
           (Ok tt) (Ok tt) (Ok "renderer.js").

(** The renderer answers with a redirect. *)
Definition redirecting : Collaborators nat unit unit :=
  scenario (Ok RenderResponse) (Ok (EndpointSimple "{}"))
           (Ok tt) (Ok tt) (Ok "renderer.js").

(** The output directory cannot be made. *)
Definition readOnlyDisk : Collaborators nat unit unit :=
  scenario (Ok (RenderHtml "<html></html>")) (Ok (EndpointSimple "{}"))
           (Throw (Error "EACCES: permission denied, mkdir"))
           (Ok tt) (Ok "renderer.js").

(** The compiled page module cannot be imported. *)
Definition brokenPage : Collaborators nat unit unit :=
  scenario (Ok (RenderHtml "<html></html>")) (Ok (EndpointSimple "{}"))
           (Ok tt) (Throw (Error "SyntaxError: Unexpected token"))
           (Ok "renderer.js").

(** The server entry point of a renderer cannot be resolved. *)
Definition missingRenderer : Collaborators nat unit unit :=
  scenario (Ok (RenderHtml "<html></html>")) (Ok (EndpointSimple "{}"))
           (Ok tt) (Ok tt) (Throw (Error "Cannot find module")).

Definition reactRenderer : AstroRenderer :=
  mkRenderer "@astrojs/renderer-react" "@astrojs/renderer-react/server.js".

Definition svelteRenderer : AstroRenderer :=
  mkRenderer "@astrojs/renderer-svelte" "@astrojs/renderer-svelte/server.js".

(** Two renderers, and scripts injected at two stages. *)
Definition richConfig : AstroConfig :=
  mkConfig "file:///proj/" None false [reactRenderer; svelteRenderer]
           [mkScript "head-inline" "window.a = 1";
            mkScript "page" "import 'x'";
            mkScript "head-inline" "window.b = 2"].

Definition richOpts : StaticBuildOptions := mkBuildOptions richConfig "".

Definition world0 : World nat :=
  mkWorld [] [] [] [["a.css"; "b.css"]] 0.

End Scenarios.

(** ** Frames *)

(** The shared arrays and the page names are the same in both worlds. *)
Definition sameStore {Sigma} (w w' : World Sigma) : Prop :=
  arrays w' = arrays w /\ pageNames w' = pageNames w.

Definition keepsStore {Sigma A} (m : M Sigma A) : Prop :=
  forall w, sameStore w (snd (m w)).

(** From [w] to [w'] the log, the file-system operations and the page
    names have only been added to, no array has gone, and every array
    that was there holds what it held, in the same or in the opposite
    order. *)
Definition appendOnly {Sigma} (w w' : World Sigma) : Prop :=
  (exists l, logs w' = logs w ++ l)
  /\ (exists f, fsOps w' = fsOps w ++ f)
  /\ (exists n, pageNames w' = pageNames w ++ n)
  /\ length (arrays w) <= length (arrays w')
  /\ forall a, a < length (arrays w) ->
       nth a (arrays w') [] = nth a (arrays w) []
       \/ nth a (arrays w') [] = rev (nth a (arrays w) []).

Definition growsOnly {Sigma A} (m : M Sigma A) : Prop :=
  forall w, appendOnly w (snd (m w)).

(** Only the state of the collaborators differs. *)
Definition sameButExt {Sigma} (w w' : World Sigma) : Prop :=
  logs w' = logs w /\ fsOps w' = fsOps w
  /\ pageNames w' = pageNames w /\ arrays w' = arrays w.

(** * Properties *)

Module ThrottleFacts.
Import Throttle.

Lemma run_max m : forall rest0 tmp0 i0, max (run m tmp0 i0 rest0) = m.
Proof.
  induction rest0 as [|p rest0 IH]; intros tmp0 i0; cbn [run].
  - destruct tmp0; reflexivity.
  - destruct (i0 =? m)%Z; [reflexivity|apply IH].
Qed.

Lemma forOf_after_last_yield fuel m tmp0 i0 :
  forOf fuel (mkGen m tmp0 i0 [] YieldedAtEnd) = [].
Proof. destruct fuel; reflexivity. Qed.

(** One run of the loop followed by the rest of the iteration, given
    that the rest of the iteration is already understood. *)
Lemma forOf_run m fuel
  (IH : forall g, resumable g -> max g = m -> length (rest g) < fuel ->
                  forOf fuel g = batchesFrom m [] 0 (rest g)) :
  forall rest0 tmp0 i0,
    length rest0 <= fuel ->
    (let g := run m tmp0 i0 rest0 in
     if done g then [] else tmp g :: forOf fuel g)
    = batchesFrom m tmp0 i0 rest0.
Proof.
  induction rest0 as [|p rest0 IHr]; intros tmp0 i0 Hf.
  - destruct tmp0 as [|q tmp0]; [reflexivity|].
    cbn. now rewrite forOf_after_last_yield.
  - cbn [run batchesFrom]. destruct (i0 =? m)%Z.
    + cbn [done at_pc tmp]. f_equal.
      rewrite IH; [reflexivity|now right|reflexivity|]. cbn in *. lia.
    + apply IHr. cbn in Hf. lia.
Qed.

Lemma forOf_batchesFrom : forall fuel g,
  resumable g -> length (rest g) < fuel ->
  forOf fuel g = batchesFrom (max g) [] 0 (rest g).
Proof.
  induction fuel as [|fuel IH]; intros g Hg Hf; [lia|].
  cbn [forOf]. unfold next.
  destruct Hg as [-> | ->];
    (apply forOf_run; [intros g' Hg' <- Hlt; now apply IH|lia]).
Qed.

(** The fuel of [batches] is enough, and more fuel changes nothing. *)
Lemma forOf_fuel m inPaths fuel :
  length inPaths < fuel ->
  forOf fuel (throttle m inPaths) = batches m inPaths.
Proof.
  intros Hf. unfold batches.
  rewrite !forOf_batchesFrom; try reflexivity; try (now left); cbn; lia.
Qed.

Lemma batches_eq m inPaths :
  batches m inPaths = batchesFrom m [] 0 inPaths.
Proof.
  unfold batches. rewrite forOf_batchesFrom; [reflexivity|now left|].
  cbn. lia.
Qed.

Lemma concat_batchesFrom m : forall rest0 tmp0 i0,
  concat (batchesFrom m tmp0 i0 rest0) = tmp0 ++ rest0.
Proof.
  induction rest0 as [|p rest0 IH]; intros tmp0 i0; cbn [batchesFrom].
  - destruct tmp0; cbn; now rewrite ?app_nil_r.
  - destruct (i0 =? m)%Z.
    + cbn [concat]. rewrite IH. cbn. now rewrite <- app_assoc.
    + rewrite IH. now rewrite <- app_assoc.
Qed.

(** The batches in terms of lengths: with [i] counting the buffer,
    a batch is yielded in the loop when the buffer holds [max + 1]
    paths. *)
Lemma batchesFrom_lengths m : forall rest0 tmp0 i0,
  (i0 = Z.of_nat (length tmp0))%Z -> (i0 <= m)%Z ->
  Forall (fun b => (Z.of_nat (length b) <= m + 1)%Z)
         (batchesFrom m tmp0 i0 rest0)
  /\ forall pre last,
       batchesFrom m tmp0 i0 rest0 = pre ++ [last] ->
       Forall (fun b => Z.of_nat (length b) = (m + 1)%Z) pre.
Proof.
  induction rest0 as [|p rest0 IH]; intros tmp0 i0 Hi Hle;
    cbn [batchesFrom].
  - destruct tmp0 as [|q tmp0].
    + split; [constructor|]. intros [|x pre] last H; discriminate.
    + split; [repeat constructor; lia|].
      intros [|x [|y pre]] last H; try discriminate; constructor.
  - assert (Hlen : Z.of_nat (length (tmp0 ++ [p])) = (i0 + 1)%Z)
      by (rewrite length_app; cbn; lia).
    destruct (Z.eqb_spec i0 m) as [E|E].
    + destruct (IH [] 0%Z) as [IH1 IH2]; [reflexivity|lia|].
      split; [constructor; [lia|exact IH1]|].
      intros [|x pre] last H; [constructor|].
      cbn in H. injection H as <- H.
      constructor; [lia|]. eapply IH2; eassumption.
    + apply IH; lia.
Qed.

(** For [0 <= max], no batch is longer than [max + 1] and every batch
    before the last holds exactly [max + 1] paths. *)
Lemma batches_lengths (max : Z) (inPaths : list string) :
  (0 <= max)%Z ->
  Forall (fun b => (Z.of_nat (length b) <= max + 1)%Z)
         (batches max inPaths)
  /\ forall pre last,
       batches max inPaths = pre ++ [last] ->
       Forall (fun b => Z.of_nat (length b) = (max + 1)%Z) pre.
Proof.
  intros H. rewrite batches_eq. now apply batchesFrom_lengths.
Qed.

(** C1 (evaluation at the failing input): with [max = 1] the paths
    ["/a"; "/b"; "/c"] come out as a batch of two and a batch of one,
    not as three batches of one; the first batch is longer than
    [max]. *)
Theorem throttle_max1_three_paths :
  batches 1 ["/a"; "/b"; "/c"] = [["/a"; "/b"]; ["/c"]]
  /\ Exists (fun b => (1 < Z.of_nat (length b))%Z)
            (batches 1 ["/a"; "/b"; "/c"]).
Proof.
  split; [reflexivity|]. left. cbn. lia.
Qed.

(** C9: the concatenation of the batches, each read when it is
    yielded, is the input: same paths, same order, none twice and
    none missing.  This holds for every [max], so for every
    [max >= 1]. *)
Theorem throttle_concat (max : Z) (inPaths : list string) :
  concat (batches max inPaths) = inPaths.
Proof.
  rewrite batches_eq. apply concat_batchesFrom.
Qed.

(** Reading the batches only after the generator has finished is a
    different matter: they are all the one buffer. *)
Example arrayFrom_aliases :
  arrayFrom 1 ["/a"; "/b"; "/c"] = [["/c"]; ["/c"]].
Proof. reflexivity. Qed.

End ThrottleFacts.


(** ** [getByFacadeId] *)

Module FacadeFacts.
Import JsString Fixtures.

Lemma slashesToBackslashes_idem s :
  slashesToBackslashes (slashesToBackslashes s) = slashesToBackslashes s.
Proof.
  induction s as [|c s IH]; [reflexivity|].
  cbn. rewrite IH. f_equal.
  destruct (Ascii.eqb c "/") eqn:E; [reflexivity|]. now rewrite E.
Qed.


Lemma orElse_diag {T} `{Truthy T} (a : option T) : orElse a a = a.
Proof. destruct a as [v|]; cbn; [destruct (truthy v)|]; reflexivity. Qed.

(** A query in backslash form looks at one key only. *)
Lemma getByFacadeId_backslash_form {T} `{Truthy T} facadeId
  (map : JsMap.t T) :
  getByFacadeId (slashesToBackslashes facadeId) map
  = JsMap.get (slashesToBackslashes facadeId) map.
Proof.
  unfold getByFacadeId. rewrite slashesToBackslashes_idem.
  apply orElse_diag.
Qed.

(** C4 (counterexample): the record is stored under the forward-slash
    form; the forward-slash query finds it, the backslash query of
    the same identifier finds nothing. *)
Lemma getByFacadeId_not_symmetric :
  JsMap.has "/proj/src/pages/index.astro" forwardKeyMap = true
  /\ slashesToBackslashes "/proj/src/pages/index.astro"
     = "\proj\src\pages\index.astro"
  /\ getByFacadeId "/proj/src/pages/index.astro" forwardKeyMap
     = Some indexPage
  /\ getByFacadeId "\proj\src\pages\index.astro" forwardKeyMap = None
  /\ getByFacadeId "/proj/src/pages/index.astro" forwardKeyMap
     <> getByFacadeId (slashesToBackslashes "/proj/src/pages/index.astro")
                      forwardKeyMap.
Proof. repeat split. discriminate. Qed.

(** C4 (amended): the tolerance goes one way.  A query finds the
    truthy record that the map holds under the identifier as given.
    When the map holds nothing truthy under the identifier as given,
    the query with the identifier and the query with its backslash
    form return the same thing, namely what the map holds under the
    backslash form.  In general the two queries agree exactly when a
    truthy record under the identifier as given is also what the map
    holds under the backslash form. *)
Theorem getByFacadeId_tolerates_backslash_keys {T} `{Truthy T}
  (facadeId : string) (map : JsMap.t T) :
  (forall v, JsMap.get facadeId map = Some v -> truthy v = true ->
     getByFacadeId facadeId map = Some v)
  /\ ((forall v, JsMap.get facadeId map = Some v -> truthy v = false) ->
      getByFacadeId facadeId map
      = getByFacadeId (slashesToBackslashes facadeId) map
      /\ getByFacadeId facadeId map
         = JsMap.get (slashesToBackslashes facadeId) map)
  /\ (getByFacadeId facadeId map
      = getByFacadeId (slashesToBackslashes facadeId) map
      <-> forall v, JsMap.get facadeId map = Some v -> truthy v = true ->
            JsMap.get (slashesToBackslashes facadeId) map = Some v).
Proof.
  rewrite getByFacadeId_backslash_form. unfold getByFacadeId, orElse.
  destruct (JsMap.get facadeId map) as [v0|].
  - destruct (truthy v0) eqn:E.
    + split; [|split].
      * intros v Hv _. exact Hv.
      * intros Hfalsy. specialize (Hfalsy v0 eq_refl). congruence.
      * split.
        -- intros Heq v Hv _. congruence.
        -- intros Hall. symmetry. now apply Hall.
    + split; [|split].
      * intros v Hv Ht. congruence.
      * now intros _.
      * split; [|reflexivity]. intros _ v Hv Ht. congruence.
  - split; [|split].
    + discriminate.
    + now intros _.
    + split; [|reflexivity]. discriminate.
Qed.

Lemma getByFacadeId_tolerates_backslash_keys_witness :
  (JsMap.get "/proj/src/pages/index.astro" forwardKeyMap = Some indexPage
   /\ truthy indexPage = true
   /\ getByFacadeId "/proj/src/pages/index.astro" forwardKeyMap
      = Some indexPage)
  /\ ((forall v, JsMap.get "/proj/src/pages/index.astro" backslashKeyMap
                 = Some v -> truthy v = false)
      /\ getByFacadeId "/proj/src/pages/index.astro" backslashKeyMap
         = getByFacadeId (slashesToBackslashes "/proj/src/pages/index.astro")
                         backslashKeyMap
      /\ getByFacadeId "/proj/src/pages/index.astro" backslashKeyMap
         = JsMap.get (slashesToBackslashes "/proj/src/pages/index.astro")
                     backslashKeyMap).
Proof.
  split.
  - split; [reflexivity|]. split; [reflexivity|].
    apply (getByFacadeId_tolerates_backslash_keys
             "/proj/src/pages/index.astro" forwardKeyMap); reflexivity.
  - split; [discriminate|].
    apply (getByFacadeId_tolerates_backslash_keys
             "/proj/src/pages/index.astro" backslashKeyMap).
    discriminate.
Defined.

Example getByFacadeId_backslash_key :
  getByFacadeId "/proj/src/pages/index.astro" backslashKeyMap
  = Some indexPage.
Proof. reflexivity. Qed.

End FacadeFacts.

(** ** The chunk classifier and [resolve] *)

Module ClassifierFacts.
Import JsString Fixtures.

Lemma slice_app pre rest : slice (String.length pre) (pre ++ rest) = rest.
Proof. induction pre as [|c pre IH]; [reflexivity|exact IH]. Qed.



Section WithNode.
Variable node : Node.



(** C5: a specifier that is not in the table resolves to the
    placeholder when it is the before-hydration script, and fails
    with an error that names it otherwise. *)
Theorem resolve_absent_specifier I pathname specifier :
  JsMap.get specifier (entrySpecifierToBundleMap I) = None ->
  (specifier = "astro:scripts/before-hydration.js" ->
   resolve node I pathname specifier
   = Ok "data:text/javascript;charset=utf-8,//[no before-hydration script]")
  /\ (specifier <> "astro:scripts/before-hydration.js" ->
      resolve node I pathname specifier
      = Throw (Error ("Cannot find the built path for " ++ specifier)%string)).
Proof.
  intros Habs. unfold resolve. rewrite Habs.
  destruct (String.eqb_spec specifier "astro:scripts/before-hydration.js");
    split; intros; congruence.
Qed.

(** C6 (amended): for a specifier of the table the result begins
    with a dot.  It is [./] followed by what [posix.relative]
    returned when that does not begin with a dot, and what
    [posix.relative] returned, unchanged, when it does. *)
Theorem resolve_present_specifier I pathname specifier hashedFilePath :
  JsMap.get specifier (entrySpecifierToBundleMap I) = Some hashedFilePath ->
  let relPath :=
    posix_relative node pathname ("/" ++ hashedFilePath)%string in
  exists resolved,
    resolve node I pathname specifier = Ok resolved
    /\ firstCharIs "." resolved = true
    /\ (firstCharIs "." relPath = false ->
        resolved = ("./" ++ relPath)%string
        /\ beginsDotSlash resolved = true)
    /\ (firstCharIs "." relPath = true -> resolved = relPath)
    /\ (beginsDotSlash relPath = true -> beginsDotSlash resolved = true).
Proof.
  intros Hget relPath. unfold resolve. rewrite Hget. fold relPath.
  destruct (firstCharIs "." relPath) eqn:E.
  - exists relPath. repeat split; intros; try assumption; discriminate.
  - exists ("./" ++ relPath)%string.
    repeat split; intros; try reflexivity; discriminate.
Qed.

End WithNode.


Example chunkIsPage_backslash_root :
  chunkIsPage Posix.node config
    (mkOutput chunk "index.js" (Some "\proj\src/pages/index.astro"))
    siteInternals = true.
Proof. reflexivity. Qed.

Lemma resolve_absent_specifier_witness :
  JsMap.get "astro:scripts/before-hydration.js"
            (entrySpecifierToBundleMap noInternals) = None
  /\ JsMap.get "/src/components/Counter.jsx"
               (entrySpecifierToBundleMap noInternals) = None
  /\ resolve Posix.node noInternals "/about"
             "astro:scripts/before-hydration.js"
     = Ok "data:text/javascript;charset=utf-8,//[no before-hydration script]"
  /\ resolve Posix.node noInternals "/about" "/src/components/Counter.jsx"
     = Throw (Error "Cannot find the built path for /src/components/Counter.jsx").
Proof.
  split; [reflexivity|]. split; [reflexivity|]. split.
  - apply (resolve_absent_specifier Posix.node noInternals "/about"
             "astro:scripts/before-hydration.js" eq_refl).
    reflexivity.
  - apply (resolve_absent_specifier Posix.node noInternals "/about"
             "/src/components/Counter.jsx" eq_refl).
    discriminate.
Defined.

(** C6 (counterexample): the bundle of [/src/hidden.js] is the file
    [.hidden.js]; for the page [/] the resolved path is the bare name
    [.hidden.js], which begins with neither [./] nor [../]. *)
Lemma resolve_dotfile_is_bare :
  JsMap.get "/src/hidden.js" (entrySpecifierToBundleMap siteInternals)
  = Some ".hidden.js"
  /\ resolve Posix.node siteInternals "/" "/src/hidden.js" = Ok ".hidden.js"
  /\ beginsDotSlash ".hidden.js" = false.
Proof. repeat split. Qed.

(** *** When the resolved path begins with [./] or [../]

    With the platform's [posix.relative], a bundle file none of whose
    segments begins with a dot resolves to a path that begins with
    [./] or [../], or to [..] itself. *)

Lemma normalizeSegments_noDot : forall segs acc,
  Forall noDot segs -> Forall noDot acc ->
  Forall noDot (Posix.normalizeSegments acc segs).
Proof.
  induction segs as [|seg segs IH]; intros acc Hs Ha; cbn.
  - now apply Forall_rev.
  - inversion Hs as [|? ? Hseg Hsegs]; subst.
    destruct (String.eqb seg ""); [now apply IH|].
    destruct (String.eqb seg "."); [now apply IH|].
    destruct (String.eqb seg "..").
    + apply IH; [assumption|]. destruct acc; [constructor|].
      now inversion Ha.
    + apply IH; [assumption|]. now constructor.
Qed.

Lemma dropCommon_noDot : forall from to,
  Forall noDot to -> Forall noDot (snd (Posix.dropCommon from to)).
Proof.
  induction from as [|f from IH]; intros [|t to] Ht; cbn; try assumption.
  destruct (String.eqb f t); [|assumption].
  apply IH. now inversion Ht.
Qed.

Lemma firstCharIs_app c (a b : string) :
  firstCharIs c (a ++ b)
  = match a with EmptyString => firstCharIs c b | _ => firstCharIs c a end.
Proof. destruct a; reflexivity. Qed.

Lemma join_noDot : forall down,
  Forall noDot down -> firstCharIs "." (join "/" down) = false.
Proof.
  intros [|d [|d' down]] H; [reflexivity| |].
  - now inversion H.
  - cbn [join]. rewrite firstCharIs_app.
    inversion H as [|? ? Hd _]; subst. destruct d; [reflexivity|exact Hd].
Qed.

Lemma join_up : forall (up : list string) down,
  up <> [] ->
  let rel := join "/" (map (fun _ => "..") up ++ down) in
  firstCharIs "." rel = true
  /\ (beginsDotSlash rel = true \/ rel = "..").
Proof.
  intros [|u up] down Hup; [congruence|].
  cbn [map app].
  destruct (map (fun _ => "..") up ++ down) as [|r rs];
    [now split; [|right]|].
  split; [reflexivity|now left].
Qed.

Lemma noDotSegments_Forall p :
  noDotSegments p = true -> Forall noDot (split "/" p).
Proof.
  unfold noDotSegments. rewrite forallb_forall, Forall_forall.
  intros H seg Hin. specialize (H seg Hin). unfold noDot.
  now destruct (firstCharIs "." seg).
Qed.

Lemma resolve_posix_noDotSegments I pathname specifier hashedFilePath :
  JsMap.get specifier (entrySpecifierToBundleMap I) = Some hashedFilePath ->
  noDotSegments hashedFilePath = true ->
  exists resolved,
    resolve Posix.node I pathname specifier = Ok resolved
    /\ (beginsDotSlash resolved = true \/ resolved = "..").
Proof.
  intros Hget Hseg. unfold resolve. rewrite Hget.
  cbn [posix_relative Posix.node]. unfold Posix.relative.
  assert (Hto : Forall noDot
                  (Posix.resolveSegments "/" ("/" ++ hashedFilePath)%string)).
  { unfold Posix.resolveSegments. cbn [firstCharIs append Ascii.eqb].
    cbn. apply normalizeSegments_noDot; [|constructor].
    now apply noDotSegments_Forall. }
  pose proof (dropCommon_noDot (Posix.resolveSegments "/" pathname) _ Hto)
    as Hdown.
  destruct (Posix.dropCommon _ _) as [up down]. cbn [snd] in Hdown.
  destruct up as [|u up].
  - cbn [map app]. rewrite (join_noDot down Hdown).
    eexists. split; [reflexivity|]. now left.
  - destruct (join_up (u :: up) down) as [Hdot Hrel]; [discriminate|].
    cbv zeta in Hdot, Hrel. rewrite Hdot.
    eexists. split; [reflexivity|]. exact Hrel.
Qed.

(** The parent directory itself is returned as [..]. *)
Example resolve_parent_directory :
  resolve Posix.node (mkInternals [("/src/a.js", "a")] [] []) "/a/b"
          "/src/a.js" = Ok "..".
Proof. reflexivity. Qed.

Lemma resolve_present_specifier_witness :
  JsMap.get "/src/pages/index.astro"
            (entrySpecifierToBundleMap siteInternals)
  = Some "assets/index.abc.js"
  /\ exists resolved,
       resolve Posix.node siteInternals "/about" "/src/pages/index.astro"
       = Ok resolved
       /\ resolved = "../assets/index.abc.js".
Proof.
  split; [reflexivity|].
  destruct (resolve_present_specifier Posix.node siteInternals "/about"
              "/src/pages/index.astro" "assets/index.abc.js" eq_refl)
    as (resolved & Hres & _ & _ & Hdot & _).
  exists resolved. split; [exact Hres|]. apply Hdot. reflexivity.
Defined.

End ClassifierFacts.

(** ** [generatePath], [generatePage], [generatePages] *)

Lemma nth_setNth_same {A} (d a : A) : forall n l,
  nth n (setNth n a l) d = if (n <? length l)%nat then a else d.
Proof.
  induction n as [|n IH]; intros [|x l]; cbn; try reflexivity.
  rewrite IH. reflexivity.
Qed.

(** Reversing the array behind a reference: afterwards the reference
    reads the reversed contents, also when it dangles. *)
Lemma nth_setNth_rev {A} n (l : list (list A)) :
  nth n (setNth n (rev (nth n l [])) l) [] = rev (nth n l []).
Proof.
  rewrite nth_setNth_same.
  destruct (Nat.ltb_spec n (length l)) as [H|H]; [reflexivity|].
  now rewrite nth_overflow.
Qed.


Lemma setNth_setNth {A} (a b : A) : forall n l,
  setNth n b (setNth n a l) = setNth n b l.
Proof.
  induction n as [|n IH]; intros [|x l]; cbn; try reflexivity.
  now rewrite IH.
Qed.

Section FrameFacts.
Variable Sigma : Type.

Lemma sameStore_refl (w : World Sigma) : sameStore w w.
Proof. now split. Qed.

Lemma sameStore_trans (w1 w2 w3 : World Sigma) :
  sameStore w1 w2 -> sameStore w2 w3 -> sameStore w1 w3.
Proof. intros [? ?] [? ?]; split; congruence. Qed.

Lemma keepsStore_ret {A} (a : A) : keepsStore (@ret Sigma A a).
Proof. intros w. apply sameStore_refl. Qed.

Lemma keepsStore_throw {A} e : keepsStore (@throw Sigma A e).
Proof. intros w. apply sameStore_refl. Qed.

Lemma keepsStore_liftResult {A} (r : Result A) :
  keepsStore (@liftResult Sigma A r).
Proof. intros w. apply sameStore_refl. Qed.

Lemma keepsStore_liftExt {A} (c : Ext Sigma A) : keepsStore (liftExt c).
Proof. intros w. unfold liftExt. destruct (c (ext w)). now split. Qed.

Lemma keepsStore_log entry : keepsStore (@log Sigma entry).
Proof. intros w. now split. Qed.

Lemma keepsStore_record op : keepsStore (@record Sigma op).
Proof. intros w. now split. Qed.

Lemma keepsStore_bind {A B} (m : M Sigma A) (k : A -> M Sigma B) :
  keepsStore m -> (forall a, keepsStore (k a)) -> keepsStore (bind m k).
Proof.
  intros Hm Hk w. unfold bind. specialize (Hm w).
  destruct (m w) as [[a|e] w1]; cbn in *; [|exact Hm].
  eapply sameStore_trans; [exact Hm|apply Hk].
Qed.

Lemma keepsStore_tryCatch {A} (m : M Sigma A) h :
  keepsStore m -> (forall e, keepsStore (h e)) -> keepsStore (tryCatch m h).
Proof.
  intros Hm Hh w. unfold tryCatch. specialize (Hm w).
  destruct (m w) as [[a|e] w1]; cbn in *; [exact Hm|].
  eapply sameStore_trans; [exact Hm|apply Hh].
Qed.

End FrameFacts.

Create HintDb frame.
#[global] Hint Resolve keepsStore_ret keepsStore_throw keepsStore_liftResult
  keepsStore_liftExt keepsStore_log keepsStore_record : frame.

Ltac frame :=
  repeat first
    [ apply keepsStore_bind; [|intros ?]
    | apply keepsStore_tryCatch; [|intros ?]
    | match goal with
      | |- keepsStore (match ?x with _ => _ end) => destruct x
      | |- keepsStore (if ?b then _ else _) => destruct b
      end
    | solve [auto with frame] ].

Section GenerateFacts.
Variables Sigma ComponentInstance RendererSsr : Type.
Variable node : Node.
Variable C : Collaborators Sigma ComponentInstance RendererSsr.

Local Abbreviation GPO :=
  (GeneratePathOptions ComponentInstance RendererSsr).

(** The [try] block and its handler touch neither the shared arrays
    nor the page names. *)
Lemma keepsStore_generatePathTry pathname opts (gopts : GPO) links scripts :
  keepsStore (generatePathTry node C pathname opts gopts links scripts).
Proof.
  unfold generatePathTry, mkdir, writeFile, info, debug, error. frame.
Qed.

(** What lines 174-196 do to the world, and what they return. *)
Lemma generatePathHead_eq pathname opts (gopts : GPO) w :
  generatePathHead C pathname opts gopts w
  = (elementSets C opts gopts (rev (deref (linkIds gopts) w)),
     mkWorld
       (logs w ++ [LogDebug "build" ("Generating: " ++ pathname)%string])
       (fsOps w)
       (if RouteType_eqb (route_type (route (pageData gopts))) page
        then pageNames w
             ++ [withoutLeadingSlash (withTrailingSlash pathname)]
        else pageNames w)
       (setNth (addr (linkIds gopts)) (rev (deref (linkIds gopts) w))
               (arrays w))
       (ext w)).
Proof.
  unfold generatePathHead, bind, addPageName, debug, log, reverse,
    liftResult, ret, deref.
  destruct (RouteType_eqb (route_type (route (pageData gopts))) page);
    reflexivity.
Qed.

(** The world after a whole call: the array is reversed whatever the
    outcome. *)
Lemma generatePath_arrays pathname opts (gopts : GPO) w :
  arrays (snd (generatePath node C pathname opts gopts w))
  = setNth (addr (linkIds gopts)) (rev (deref (linkIds gopts) w))
           (arrays w).
Proof.
  unfold generatePath, bind. rewrite generatePathHead_eq.
  destruct (elementSets C opts gopts _) as [[links scripts]|e];
    [|reflexivity].
  assert (K : keepsStore
                (tryCatch
                   (generatePathTry node C pathname opts gopts links scripts)
                   (fun err => error "build" "Error rendering:" err))).
  { apply keepsStore_tryCatch;
      [apply keepsStore_generatePathTry|intros; apply keepsStore_log]. }
  match goal with |- arrays (snd (_ ?w1)) = _ => destruct (K w1) as [Ha _] end.
  exact Ha.
Qed.

(** A call whose element sets are built ends normally, with the
    error of the [try] block, if any, in the log. *)
Lemma generatePath_after_head pathname opts (gopts : GPO) w links scripts
  w1 :
  generatePathHead C pathname opts gopts w = (Ok (links, scripts), w1) ->
  generatePath node C pathname opts gopts w
  = match generatePathTry node C pathname opts gopts links scripts w1 with
    | (Ok _, w2) => (Ok tt, w2)
    | (Throw e, w2) =>
        (Ok tt,
         mkWorld (logs w2 ++ [LogError "build" "Error rendering:" e])
                 (fsOps w2) (pageNames w2) (arrays w2) (ext w2))
    end.
Proof.
  intros Hhead. unfold generatePath, bind, tryCatch. rewrite Hhead.
  destruct (generatePathTry node C pathname opts gopts links scripts w1)
    as [[[]|e] w2]; reflexivity.
Qed.

(** C2 (amended): once the element sets are built, the call cannot
    fail.  Whatever the [try] block raises, in the renderer, the
    endpoint, [resolve], the output-path helpers or the file system,
    is caught: the call completes normally and the error is logged
    as [Error rendering:].  The element sets themselves are built
    before the [try]. *)
Theorem generatePath_try_errors_swallowed pathname opts (gopts : GPO)
  w links scripts :
  elementSets C opts gopts (rev (deref (linkIds gopts) w))
  = Ok (links, scripts) ->
  fst (generatePath node C pathname opts gopts w) = Ok tt
  /\ forall e w2,
       generatePathTry node C pathname opts gopts links scripts
         (snd (generatePathHead C pathname opts gopts w))
       = (Throw e, w2) ->
       snd (generatePath node C pathname opts gopts w)
       = mkWorld (logs w2 ++ [LogError "build" "Error rendering:" e])
                 (fsOps w2) (pageNames w2) (arrays w2) (ext w2).
Proof.
  intros Hsets.
  rewrite (generatePath_after_head pathname opts gopts w links scripts
             (snd (generatePathHead C pathname opts gopts w)))
    by (rewrite generatePathHead_eq, Hsets; reflexivity).
  destruct (generatePathTry node C pathname opts gopts links scripts _)
    as [[[]|e] w2] eqn:Htry.
  - split; [reflexivity|]. intros e w2' H. discriminate.
  - split; [reflexivity|]. intros e' w2' H.
    injection H as <- <-. reflexivity.
Qed.

(** An error of the element-set constructors is the outcome of the
    call, and nothing is logged for it. *)
Lemma generatePath_head_error pathname opts (gopts : GPO) w e :
  elementSets C opts gopts (rev (deref (linkIds gopts) w)) = Throw e ->
  fst (generatePath node C pathname opts gopts w) = Throw e
  /\ logs (snd (generatePath node C pathname opts gopts w))
     = logs w ++ [LogDebug "build" ("Generating: " ++ pathname)%string].
Proof.
  intros H. unfold generatePath, bind. rewrite generatePathHead_eq, H.
  now split.
Qed.

(** C7: an endpoint whose handler answers with a response object.
    The call completes normally; the error is logged; no directory is
    made and no file is written. *)
Theorem generatePath_endpoint_response pathname opts (gopts : GPO)
  w links scripts s' :
  route_type (route (pageData gopts)) = endpoint ->
  elementSets C opts gopts (rev (deref (linkIds gopts) w))
  = Ok (links, scripts) ->
  callEndpoint C (mod_ gopts)
    (renderOptions node pathname opts gopts links scripts) (ext w)
  = (Ok EndpointResponse, s') ->
  generatePath node C pathname opts gopts w
  = (Ok tt,
     mkWorld
       (logs w
        ++ [LogDebug "build" ("Generating: " ++ pathname)%string;
            LogError "build" "Error rendering:"
              (Error "Returning a Response from an endpoint is not supported in SSG mode.")])
       (fsOps w)
       (pageNames w)
       (setNth (addr (linkIds gopts)) (rev (deref (linkIds gopts) w))
               (arrays w))
       s').
Proof.
  intros Hty Hsets Hcall.
  unfold generatePath, bind. rewrite generatePathHead_eq, Hsets.
  unfold tryCatch, generatePathTry, bind, liftExt. rewrite Hty.
  cbn [RouteType_eqb ext]. rewrite Hcall.
  unfold throw, error, log. cbn [logs fsOps pageNames arrays ext].
  rewrite <- app_assoc. reflexivity.
Qed.


(** A page record is missing: [generatePage] throws, and the world is
    as it was. *)
Lemma generatePage_no_record output opts I map renderers facadeId w :
  facadeModuleId output = Some facadeId ->
  getByFacadeId facadeId map = None ->
  exists e,
    generatePage node C output opts I map renderers w = (Throw e, w).
Proof.
  intros Hf Hnone. unfold generatePage, bind, liftResult.
  destruct (getOutRoot C (astroConfig opts)) as [outRoot|e]; [|eauto].
  destruct (newURL C _ outRoot) as [url|e]; [|eauto].
  rewrite Hf, Hnone. unfold throw. eauto.
Qed.

(** When the output location can be computed, the error is the one of
    line 115. *)
Lemma generatePage_missing_record output opts I map renderers facadeId
  outRoot url w :
  getOutRoot C (astroConfig opts) = Ok outRoot ->
  newURL C ("./" ++ fileName output)%string outRoot = Ok url ->
  facadeModuleId output = Some facadeId ->
  getByFacadeId facadeId map = None ->
  generatePage node C output opts I map renderers w
  = (Throw (missingPageBuildData facadeId map), w).
Proof.
  intros Hroot Hurl Hf Hnone. unfold generatePage, bind, liftResult.
  rewrite Hroot, Hurl, Hf, Hnone. reflexivity.
Qed.

(** A loop stops at the first element whose body throws. *)
Lemma forEach_stops {A} (body : A -> M Sigma unit) x :
  (forall w, exists e, fst (body x w) = Throw e) ->
  forall pre post w,
    forEach (pre ++ x :: post) body w = forEach (pre ++ [x]) body w
    /\ exists e, fst (forEach (pre ++ x :: post) body w) = Throw e.
Proof.
  intros Hx. induction pre as [|y pre IH]; intros post w;
    cbn [app forEach]; unfold bind.
  - destruct (Hx w) as [e He].
    destruct (body x w) as [[[]|e'] w']; cbn in He; [discriminate|].
    split; [reflexivity|]. cbn. eauto.
  - destruct (body y w) as [[[]|e'] w']; [apply IH|].
    split; [reflexivity|]. cbn. eauto.
Qed.

(** C8: a chunk that the classifier accepts and whose facade
    identifier has no page record makes [generatePages] end with an
    error, and nothing that follows the chunk in the build output is
    looked at. *)
Theorem generatePages_missing_record_aborts pre output post opts I map
  facadeId w :
  chunkIsPage node (astroConfig opts) output I = true ->
  facadeModuleId output = Some facadeId ->
  getByFacadeId facadeId map = None ->
  (exists e,
     fst (generatePages node C (pre ++ output :: post) opts I map w)
     = Throw e)
  /\ generatePages node C (pre ++ output :: post) opts I map w
     = generatePages node C (pre ++ [output]) opts I map w.
Proof.
  intros Hpage Hf Hnone. unfold generatePages, bind.
  destruct (info " generating static routes " w) as [[[]|e] w0];
    [|split; [cbn; eauto|reflexivity]].
  destruct (loadRenderers C (astroConfig opts) w0) as [[rs|e] w1];
    [|split; [cbn; eauto|reflexivity]].
  match goal with
  | |- context [forEach _ ?b _] =>
      destruct (forEach_stops b output) with (pre := pre) (post := post)
                                              (w := w1) as [Heq Hthrow]
  end.
  - intros w'. rewrite Hpage.
    destruct (generatePage_no_record output opts I map rs facadeId w'
                Hf Hnone) as [e He].
    rewrite He. cbn. eauto.
  - split; assumption.
Qed.

(** *** Sibling paths *)

Lemma generatePath_pageNames pathname opts (gopts : GPO) w :
  pageNames (snd (generatePath node C pathname opts gopts w))
  = if RouteType_eqb (route_type (route (pageData gopts))) page
    then pageNames w ++ [withoutLeadingSlash (withTrailingSlash pathname)]
    else pageNames w.
Proof.
  unfold generatePath, bind. rewrite generatePathHead_eq.
  destruct (elementSets C opts gopts _) as [[links scripts]|e];
    [|reflexivity].
  assert (K : keepsStore
                (tryCatch
                   (generatePathTry node C pathname opts gopts links scripts)
                   (fun err => error "build" "Error rendering:" err))).
  { apply keepsStore_tryCatch;
      [apply keepsStore_generatePathTry|intros; apply keepsStore_log]. }
  match goal with
  | |- pageNames (snd (_ ?w1)) = _ => destruct (K w1) as [_ Hp]
  end.
  exact Hp.
Qed.

Section ElementSetsNeverFail.
Variable opts : StaticBuildOptions.
Variable gopts : GPO.
Hypothesis sets_ok :
  forall ids, exists sets, elementSets C opts gopts ids = Ok sets.

Lemma generatePath_ok pathname w :
  fst (generatePath node C pathname opts gopts w) = Ok tt.
Proof.
  destruct (sets_ok (rev (deref (linkIds gopts) w)))
    as [[links scripts] Hs].
  rewrite (generatePath_after_head pathname opts gopts w links scripts
             (snd (generatePathHead C pathname opts gopts w))).
  - now destruct (generatePathTry _ _ _ _ _ _ _ _) as [[[]|e] w2].
  - rewrite generatePathHead_eq, Hs. reflexivity.
Qed.

Lemma renderPromises_ok : forall batch w,
  fst (mapM (fun path => settle (generatePath node C path opts gopts))
            batch w)
  = Ok (map (fun _ => Ok tt) batch).
Proof.
  induction batch as [|p batch IH]; intros w; [reflexivity|].
  cbn [mapM map]. unfold bind at 1. unfold settle at 1.
  pose proof (generatePath_ok p w) as Hp.
  destruct (generatePath node C p opts gopts w) as [r w1].
  cbn in Hp. subst r. unfold bind at 1.
  specialize (IH w1).
  destruct (mapM _ batch w1) as [rs w2]. cbn in IH. subst rs.
  reflexivity.
Qed.

Lemma renderPromises_pageNames : forall batch w,
  pageNames
    (snd (mapM (fun path => settle (generatePath node C path opts gopts))
               batch w))
  = if RouteType_eqb (route_type (route (pageData gopts))) page
    then pageNames w
         ++ map (fun p => withoutLeadingSlash (withTrailingSlash p)) batch
    else pageNames w.
Proof.
  induction batch as [|p batch IH]; intros w.
  - cbn. destruct (RouteType_eqb _ _); now rewrite ?app_nil_r.
  - cbn [mapM map]. unfold bind at 1. unfold settle at 1.
    pose proof (generatePath_pageNames p opts gopts w) as Hp.
    destruct (generatePath node C p opts gopts w) as [r w1].
    cbn [snd] in Hp. unfold bind at 1.
    specialize (IH w1). pose proof (renderPromises_ok batch w1) as Hok.
    destruct (mapM _ batch w1) as [rs w2]. cbn [fst] in Hok. subst rs.
    cbn [snd ret] in *. rewrite IH, Hp.
    destruct (RouteType_eqb _ _); [|reflexivity].
    now rewrite <- app_assoc.
Qed.

Lemma promiseAll_ok {A} (a : A) : forall (batch : list string),
  promiseAll (map (fun _ => Ok a) batch) = Ok (map (fun _ => a) batch).
Proof.
  induction batch as [|p batch IH]; [reflexivity|].
  cbn. now rewrite IH.
Qed.

Lemma forEach_info_ok (f : string -> string) : forall batch w,
  fst (forEach batch (fun path => @info Sigma (f path)) w) = Ok tt
  /\ sameStore w (snd (forEach batch (fun path => info (f path)) w)).
Proof.
  induction batch as [|p batch IH]; intros w;
    [split; [reflexivity|apply sameStore_refl]|].
  cbn [forEach]. unfold bind, info at 1 3, log.
  destruct (IH (mkWorld (logs w ++ [LogInfo (f p)]) (fsOps w)
                        (pageNames w) (arrays w) (ext w))) as [H1 H2].
  split; [exact H1|]. destruct H2 as [Ha Hp]. now split.
Qed.

(** With element sets that cannot fail, a batch never fails,
    whatever happens while its batch are rendered and written, and
    every path of the batch has been started: for a page route all
    the page names are there, in the order of the batch. *)
Lemma generateBatch_never_throws batch w :
  fst (generateBatch node C opts gopts batch w) = Ok tt
  /\ pageNames (snd (generateBatch node C opts gopts batch w))
     = if RouteType_eqb (route_type (route (pageData gopts))) page
       then pageNames w
            ++ map (fun p => withoutLeadingSlash (withTrailingSlash p))
                   batch
       else pageNames w.
Proof.
  unfold generateBatch. unfold bind at 1 3.
  pose proof (renderPromises_ok batch w) as Hok.
  pose proof (renderPromises_pageNames batch w) as Hnames.
  destruct (mapM _ batch w) as [rs w1]. cbn [fst snd] in *. subst rs.
  unfold bind, liftResult. rewrite promiseAll_ok.
  destruct (forEach_info_ok (fun path => ("    | " ++ path)%string)
              batch w1) as [H1 [_ H2]].
  split; [exact H1|]. now rewrite H2.
Qed.

End ElementSetsNeverFail.

End GenerateFacts.

(** ** Runs on the concrete project *)

Module GenerateRuns.
Import Fixtures.

(** C2 (counterexample): the configured site is not a URL, so the
    stylesheet link set cannot be built.  The error is raised before
    the [try] block: it is the outcome of [generatePath], and no
    [Error rendering:] line is logged. *)
Lemma generatePath_element_set_error_propagates :
  generatePath Posix.node collaborators "/about"
               (mkBuildOptions badSiteConfig "") (pathOptions indexPage)
               world
  = (Throw (Error "TypeError: Invalid URL"),
     mkWorld [LogDebug "build" "Generating: /about"] [] ["about/"]
             [["b.css"; "a.css"]] tt).
Proof. reflexivity. Qed.

(** The same error ends the whole run. *)
Example generatePages_element_set_error_aborts :
  fst (generatePages Posix.node collaborators [indexChunk]
         (mkBuildOptions badSiteConfig "") siteInternals forwardKeyMap
         world)
  = Throw (Error "TypeError: Invalid URL").
Proof. reflexivity. Qed.

Lemma generatePath_try_errors_swallowed_witness :
  elementSets collaborators opts (pathOptions apiPage)
    (rev (deref (linkIds (pathOptions apiPage)) world))
  = Ok ([linkElement "b.css"; linkElement "a.css"], [])
  /\ fst (generatePath Posix.node collaborators "/api.json" opts
            (pathOptions apiPage) world) = Ok tt
  /\ logs (snd (generatePath Posix.node collaborators "/api.json" opts
                  (pathOptions apiPage) world))
     = [LogDebug "build" "Generating: /api.json";
        LogError "build" "Error rendering:"
          (Error "Returning a Response from an endpoint is not supported in SSG mode.")].
Proof.
  split; [reflexivity|].
  destruct (generatePath_try_errors_swallowed unit unit unit Posix.node
              collaborators "/api.json" opts (pathOptions apiPage) world
              [linkElement "b.css"; linkElement "a.css"] []
              eq_refl) as [Hok Hlog].
  split; [exact Hok|].
  rewrite (Hlog (Error "Returning a Response from an endpoint is not supported in SSG mode.")
                (mkWorld [LogDebug "build" "Generating: /api.json"] [] []
                         [["b.css"; "a.css"]] tt)
                eq_refl).
  reflexivity.
Defined.

Lemma generatePath_endpoint_response_witness :
  route_type (route (pageData (pathOptions apiPage))) = endpoint
  /\ elementSets collaborators opts (pathOptions apiPage)
       (rev (deref (linkIds (pathOptions apiPage)) world))
     = Ok ([linkElement "b.css"; linkElement "a.css"], [])
  /\ generatePath Posix.node collaborators "/api.json" opts
       (pathOptions apiPage) world
     = (Ok tt,
        mkWorld
          [LogDebug "build" "Generating: /api.json";
           LogError "build" "Error rendering:"
             (Error "Returning a Response from an endpoint is not supported in SSG mode.")]
          [] [] [["b.css"; "a.css"]] tt).
Proof.
  split; [reflexivity|]. split; [reflexivity|].
  exact (generatePath_endpoint_response unit unit unit Posix.node
           collaborators "/api.json" opts (pathOptions apiPage) world
           [linkElement "b.css"; linkElement "a.css"] [] tt
           eq_refl eq_refl eq_refl).
Defined.

Lemma generatePages_missing_record_aborts_witness :
  chunkIsPage Posix.node (astroConfig opts) indexChunk siteInternals = true
  /\ facadeModuleId indexChunk = Some "/proj/src/pages/index.astro"
  /\ getByFacadeId "/proj/src/pages/index.astro" aboutOnlyMap = None
  /\ (exists e,
        fst (generatePages Posix.node collaborators
               ([] ++ indexChunk :: [indexChunk]) opts siteInternals
               aboutOnlyMap world) = Throw e)
  /\ generatePages Posix.node collaborators
       ([] ++ indexChunk :: [indexChunk]) opts siteInternals aboutOnlyMap
       world
     = generatePages Posix.node collaborators ([] ++ [indexChunk]) opts
         siteInternals aboutOnlyMap world.
Proof.
  split; [reflexivity|]. split; [reflexivity|]. split; [reflexivity|].
  exact (generatePages_missing_record_aborts unit unit unit Posix.node
           collaborators [] indexChunk [indexChunk] opts siteInternals
           aboutOnlyMap "/proj/src/pages/index.astro" world
           eq_refl eq_refl eq_refl).
Defined.

(** The error of the run is the one of line 115. *)
Example generatePages_missing_record_message :
  generatePages Posix.node collaborators [indexChunk] opts siteInternals
                aboutOnlyMap world
  = (Throw (Error "Unable to find a PageBuildData for the Astro page: /proj/src/pages/index.astro. There are the PageBuildDatas we have /proj/src/pages/about.astro"),
     mkWorld [LogInfo " generating static routes "] [] []
             [["a.css"; "b.css"]] tt).
Proof. reflexivity. Qed.

(** Two consecutive calls for the same path of the same page: the
    stylesheet links come out in opposite orders. *)
Example generatePath_links_alternate :
  fst (generatePathHead collaborators "/" opts (pathOptions indexPage)
         world)
  = Ok ([linkElement "b.css"; linkElement "a.css"], [])
  /\ fst (generatePathHead collaborators "/" opts (pathOptions indexPage)
            (snd (generatePath Posix.node collaborators "/" opts
                    (pathOptions indexPage) world)))
     = Ok ([linkElement "a.css"; linkElement "b.css"], []).
Proof. split; reflexivity. Qed.

(** A whole run: both paths of the index page are one batch, both are
    written, and the array of stylesheets is back in its order. *)
Example generatePages_index :
  generatePages Posix.node collaborators [indexChunk] opts siteInternals
                forwardKeyMap world
  = (Ok tt,
     mkWorld
       [LogInfo " generating static routes ";
        LogInfo "</> src/pages/index.astro";
        LogDebug "build" "Generating: /";
        LogDebug "build" "Generating: /about";
        LogInfo "    | /";
        LogInfo "    | /about"]
       [Mkdir "/proj/dist/";
        WriteFile "/proj/dist//index.html" "<html></html>";
        Mkdir "/proj/dist/about";
        WriteFile "/proj/dist/about/index.html" "<html></html>"]
       [""; "about/"]
       [["a.css"; "b.css"]]
       tt).
Proof. reflexivity. Qed.

End GenerateRuns.

(** * Further properties of the code *)

(** ** [throttle] *)

Module ThrottleMore.
Import Throttle ThrottleFacts.

Lemma batchesFrom_nonempty m : forall rest0 tmp0 i0,
  Forall (fun b => b <> []) (batchesFrom m tmp0 i0 rest0).
Proof.
  induction rest0 as [|p rest0 IH]; intros tmp0 i0; cbn [batchesFrom].
  - destruct tmp0; repeat constructor. discriminate.
  - destruct (i0 =? m)%Z; [|apply IH].
    constructor; [|apply IH]. now destruct tmp0.
Qed.

(** X1: for [0 <= max] a batch holds between one and [max + 1] paths,
    and every batch before the last holds exactly [max + 1]: the
    concurrency of a batch is [max + 1], not [max]. *)
Theorem throttle_batch_sizes (max : Z) (inPaths : list string) :
  (0 <= max)%Z ->
  Forall (fun b => (1 <= Z.of_nat (length b) <= max + 1)%Z)
         (batches max inPaths)
  /\ forall pre last,
       batches max inPaths = pre ++ [last] ->
       Forall (fun b => Z.of_nat (length b) = (max + 1)%Z) pre.
Proof.
  intros Hmax. rewrite batches_eq.
  destruct (batchesFrom_lengths max inPaths [] 0%Z eq_refl Hmax) as [Hle Hpre].
  split; [|exact Hpre].
  pose proof (batchesFrom_nonempty max inPaths [] 0%Z) as Hne.
  rewrite Forall_forall in *. intros b Hb.
  specialize (Hle b Hb). specialize (Hne b Hb).
  split; [|exact Hle]. destruct b; [congruence|cbn; lia].
Qed.

Lemma throttle_batch_sizes_witness :
  (0 <= 1)%Z
  /\ Forall (fun b => (1 <= Z.of_nat (length b) <= 1 + 1)%Z)
            (batches 1 ["/a"; "/b"; "/c"])
  /\ forall pre last,
       batches 1 ["/a"; "/b"; "/c"] = pre ++ [last] ->
       Forall (fun b => Z.of_nat (length b) = (1 + 1)%Z) pre.
Proof.
  split; [lia|].
  apply (throttle_batch_sizes 1 ["/a"; "/b"; "/c"]). lia.
Defined.

Lemma batchesFrom_count m : forall rest0 tmp0 i0,
  (i0 = Z.of_nat (length tmp0))%Z -> (i0 <= m)%Z ->
  Z.of_nat (length (batchesFrom m tmp0 i0 rest0))
  = ((i0 + Z.of_nat (length rest0) + m) / (m + 1))%Z.
Proof.
  induction rest0 as [|p rest0 IH]; intros tmp0 i0 Hi Hle;
    cbn [batchesFrom].
  - destruct tmp0 as [|q tmp0]; cbn [length] in *.
    + subst i0. change (Z.of_nat 0) with 0%Z.
      rewrite Z.div_small by lia. reflexivity.
    + change (Z.of_nat (length [])) with 0%Z.
      apply Z.div_unique with (r := (i0 - 1)%Z); cbn [length]; lia.
  - assert (Hlen : Z.of_nat (length (tmp0 ++ [p])) = (i0 + 1)%Z)
      by (rewrite length_app; cbn; lia).
    destruct (Z.eqb_spec i0 m) as [E|E].
    + cbn [length]. rewrite Nat2Z.inj_succ, (IH [] 0%Z eq_refl) by lia.
      rewrite E.
      replace (m + Z.of_nat (S (length rest0)) + m)%Z
        with ((0 + Z.of_nat (length rest0) + m) + 1 * (m + 1))%Z
        by (rewrite Nat2Z.inj_succ; lia).
      rewrite Z.div_add by lia. lia.
    + rewrite (IH (tmp0 ++ [p]) (i0 + 1)%Z) by lia.
      f_equal. cbn [length]. rewrite Nat2Z.inj_succ. lia.
Qed.

(** X2: for [0 <= max] the number of batches is the number of paths
    divided by [max + 1], rounded up. *)
Theorem throttle_batch_count (max : Z) (inPaths : list string) :
  (0 <= max)%Z ->
  Z.of_nat (length (batches max inPaths))
  = ((Z.of_nat (length inPaths) + max) / (max + 1))%Z.
Proof.
  intros Hmax. rewrite batches_eq.
  now rewrite (batchesFrom_count max inPaths [] 0%Z eq_refl Hmax).
Qed.

Lemma throttle_batch_count_witness :
  (0 <= 1)%Z
  /\ Z.of_nat (length (batches 1 ["/a"; "/b"; "/c"]))
     = ((Z.of_nat (length ["/a"; "/b"; "/c"]) + 1) / (1 + 1))%Z.
Proof.
  split; [lia|].
  apply (throttle_batch_count 1 ["/a"; "/b"; "/c"]). lia.
Defined.

(** X3: no batch is empty, whatever [max] is, and there is no batch at
    all exactly when there is no path. *)
Theorem throttle_no_empty_batch (max : Z) (inPaths : list string) :
  Forall (fun b => b <> []) (batches max inPaths)
  /\ (batches max inPaths = [] <-> inPaths = []).
Proof.
  rewrite batches_eq. split; [apply batchesFrom_nonempty|].
  split.
  - intros H. pose proof (concat_batchesFrom max inPaths [] 0%Z) as Hc.
    rewrite H in Hc. cbn in Hc. now symmetry.
  - intros ->. reflexivity.
Qed.

Lemma batchesFrom_never_reached m : forall rest0 tmp0 i0,
  (m < 0)%Z -> (0 <= i0)%Z ->
  batchesFrom m tmp0 i0 rest0
  = match tmp0 ++ rest0 with [] => [] | _ :: _ => [tmp0 ++ rest0] end.
Proof.
  induction rest0 as [|p rest0 IH]; intros tmp0 i0 Hm Hi;
    cbn [batchesFrom].
  - rewrite app_nil_r. reflexivity.
  - destruct (Z.eqb_spec i0 m) as [E|E]; [lia|].
    rewrite IH by lia. now rewrite <- app_assoc.
Qed.

(** X4: a negative [max] is never reached by the counter, so there is
    no throttling: all the paths come as one batch. *)
Theorem throttle_negative_max (max : Z) (inPaths : list string) :
  (max < 0)%Z -> inPaths <> [] -> batches max inPaths = [inPaths].
Proof.
  intros Hm Hne. rewrite batches_eq.
  rewrite batchesFrom_never_reached by lia.
  cbn [app]. now destruct inPaths.
Qed.

Lemma throttle_negative_max_witness :
  (-1 < 0)%Z /\ ["/a"; "/b"; "/c"] <> []
  /\ batches (-1) ["/a"; "/b"; "/c"] = [["/a"; "/b"; "/c"]].
Proof.
  split; [lia|]. split; [discriminate|].
  apply (throttle_negative_max (-1) ["/a"; "/b"; "/c"]);
    [lia|discriminate].
Defined.

Lemma drain_after_last_yield fuel m tmp0 i0 :
  fst (drain fuel (mkGen m tmp0 i0 [] YieldedAtEnd)) = 0
  /\ tmp (snd (drain fuel (mkGen m tmp0 i0 [] YieldedAtEnd))) = tmp0.
Proof. destruct fuel; split; reflexivity. Qed.

Lemma drain_run m fuel
  (IH : forall g, resumable g -> max g = m -> length (rest g) < fuel ->
          fst (drain fuel g) = length (batchesFrom m [] 0 (rest g))
          /\ tmp (snd (drain fuel g)) = leftover m [] 0 (rest g)) :
  forall rest0 tmp0 i0,
    length rest0 <= fuel ->
    let g := run m tmp0 i0 rest0 in
    let r := if done g then (0, g)
             else let '(n, g'') := drain fuel g in (S n, g'') in
    fst r = length (batchesFrom m tmp0 i0 rest0)
    /\ tmp (snd r) = leftover m tmp0 i0 rest0.
Proof.
  induction rest0 as [|p rest0 IHr]; intros tmp0 i0 Hf.
  - destruct tmp0 as [|q tmp0]; [split; reflexivity|].
    cbn [run done at_pc].
    destruct (drain_after_last_yield fuel m (q :: tmp0) i0) as [H1 H2].
    destruct (drain fuel _) as [n g'']. cbn in *. subst n. now split.
  - cbn [run batchesFrom leftover]. destruct (i0 =? m)%Z.
    + cbn [done at_pc].
      destruct (IH (mkGen m (tmp0 ++ [p]) i0 rest0 YieldedInLoop))
        as [H1 H2]; [now right|reflexivity|cbn in *; lia|].
      destruct (drain fuel _) as [n g'']. cbn in *. now subst n.
    + apply IHr. cbn in Hf. lia.
Qed.

Lemma drain_batchesFrom : forall fuel g,
  resumable g -> length (rest g) < fuel ->
  fst (drain fuel g) = length (batchesFrom (max g) [] 0 (rest g))
  /\ tmp (snd (drain fuel g)) = leftover (max g) [] 0 (rest g).
Proof.
  induction fuel as [|fuel IH]; intros g Hg Hf; [lia|].
  cbn [drain]. unfold next.
  destruct Hg as [-> | ->];
    (apply drain_run; [intros g' Hg' <- Hlt; now apply IH|lia]).
Qed.

Lemma leftover_suffix m : forall rest0 tmp0 i0,
  exists pre, tmp0 ++ rest0 = pre ++ leftover m tmp0 i0 rest0.
Proof.
  induction rest0 as [|p rest0 IH]; intros tmp0 i0; cbn [leftover].
  - exists []. now rewrite app_nil_r.
  - destruct (i0 =? m)%Z.
    + destruct (IH [] 0%Z) as [pre Hpre]. cbn [app] in Hpre.
      exists (tmp0 ++ p :: pre). rewrite <- app_assoc. cbn [app].
      now rewrite <- Hpre.
    + destruct (IH (tmp0 ++ [p]) (i0 + 1)%Z) as [pre Hpre].
      exists pre. now rewrite <- Hpre, <- app_assoc.
Qed.

Lemma leftover_length m : forall rest0 tmp0 i0,
  (i0 = Z.of_nat (length tmp0))%Z -> (i0 <= m)%Z ->
  (Z.of_nat (length (leftover m tmp0 i0 rest0)) <= m)%Z.
Proof.
  induction rest0 as [|p rest0 IH]; intros tmp0 i0 Hi Hle; cbn [leftover].
  - lia.
  - destruct (Z.eqb_spec i0 m) as [E|E].
    + apply IH; [reflexivity|lia].
    + apply IH; [rewrite length_app; cbn; lia|lia].
Qed.

(** X5: the batches are one array.  Collected with [Array.from], for
    [0 <= max], they are as many as the batches read one by one, but
    all of them are the buffer in its last state: one and the same
    trailing part of the input, of at most [max] paths. *)
Theorem throttle_collected_batches_alias (max : Z) (inPaths : list string) :
  (0 <= max)%Z ->
  exists final,
    arrayFrom max inPaths = repeat final (length (batches max inPaths))
    /\ (exists pre, inPaths = pre ++ final)
    /\ (Z.of_nat (length final) <= max)%Z.
Proof.
  intros Hmax. exists (leftover max [] 0 inPaths). split; [|split].
  - unfold arrayFrom. rewrite batches_eq.
    destruct (drain_batchesFrom (S (length inPaths)) (throttle max inPaths))
      as [H1 H2]; [now left|cbn; lia|].
    destruct (drain _ _) as [n g]. cbn in *. now rewrite H1, H2.
  - apply (leftover_suffix max inPaths [] 0%Z).
  - now apply leftover_length.
Qed.

Lemma throttle_collected_batches_alias_witness :
  (0 <= 1)%Z
  /\ exists final,
       arrayFrom 1 ["/a"; "/b"; "/c"]
       = repeat final (length (batches 1 ["/a"; "/b"; "/c"]))
       /\ (exists pre, ["/a"; "/b"; "/c"] = pre ++ final)
       /\ (Z.of_nat (length final) <= 1)%Z.
Proof.
  split; [lia|].
  apply (throttle_collected_batches_alias 1 ["/a"; "/b"; "/c"]). lia.
Defined.

End ThrottleMore.

(** ** [getByFacadeId], [rootRelativeFacadeId], [resolve] *)

Module LookupMore.
Import JsString Fixtures FacadeFacts ClassifierFacts.

(** X6: the lookup finds nothing exactly when the map holds nothing
    truthy under the identifier and nothing at all under its backslash
    form. *)
Theorem getByFacadeId_none_iff {T} `{Truthy T} (facadeId : string)
  (map : JsMap.t T) :
  getByFacadeId facadeId map = None
  <-> (forall v, JsMap.get facadeId map = Some v -> truthy v = false)
      /\ JsMap.get (slashesToBackslashes facadeId) map = None.
Proof.
  unfold getByFacadeId, orElse.
  destruct (JsMap.get facadeId map) as [v|].
  - destruct (truthy v) eqn:E.
    + split; [discriminate|]. intros [Hf _].
      specialize (Hf v eq_refl). congruence.
    + split.
      * intros Hb. split; [|exact Hb]. intros v' Hv'. congruence.
      * now intros [_ Hb].
  - split.
    + intros Hb. split; [discriminate|exact Hb].
    + now intros [_ Hb].
Qed.

(** X7: the lookup returns only what the map holds: a value it returns
    is stored under the identifier and truthy, or stored under the
    backslash form of the identifier. *)
Theorem getByFacadeId_returns_stored {T} `{Truthy T} (facadeId : string)
  (map : JsMap.t T) (v : T) :
  getByFacadeId facadeId map = Some v ->
  (JsMap.get facadeId map = Some v /\ truthy v = true)
  \/ JsMap.get (slashesToBackslashes facadeId) map = Some v.
Proof.
  unfold getByFacadeId, orElse.
  destruct (JsMap.get facadeId map) as [v'|]; [|now right].
  destruct (truthy v') eqn:E; [|now right].
  intros Hv. injection Hv as <-. now left.
Qed.

Lemma getByFacadeId_returns_stored_witness :
  getByFacadeId "/proj/src/pages/index.astro"
    [("/proj/src/pages/index.astro", ""); ("\proj\src\pages\index.astro", "hoisted.js")]
  = Some "hoisted.js"
  /\ ((JsMap.get "/proj/src/pages/index.astro"
         [("/proj/src/pages/index.astro", "");
          ("\proj\src\pages\index.astro", "hoisted.js")]
       = Some "hoisted.js" /\ truthy "hoisted.js" = true)
      \/ JsMap.get (slashesToBackslashes "/proj/src/pages/index.astro")
           [("/proj/src/pages/index.astro", "");
            ("\proj\src\pages\index.astro", "hoisted.js")]
         = Some "hoisted.js").
Proof.
  split; [reflexivity|].
  apply (getByFacadeId_returns_stored "/proj/src/pages/index.astro"
           [("/proj/src/pages/index.astro", "");
            ("\proj\src\pages\index.astro", "hoisted.js")]
           "hoisted.js").
  reflexivity.
Defined.

Lemma slice_length : forall n s,
  String.length (slice n s) = String.length s - n.
Proof.
  induction n as [|n IH]; intros [|c s]; cbn; try reflexivity; try lia.
  apply IH.
Qed.

(** X8: [rootRelativeFacadeId] drops as many characters as the root
    path has, without looking at them: an identifier made of any
    prefix of that length and a rest gives the rest; in particular
    [root + rest] gives [rest].  An identifier that is not longer than
    the root gives the empty string. *)
Theorem rootRelativeFacadeId_strips_root (node : Node) (cfg : AstroConfig) :
  (forall pre rest,
     String.length pre
     = String.length (fileURLToPath node (projectRoot cfg)) ->
     rootRelativeFacadeId node (pre ++ rest)%string cfg = rest)
  /\ (forall rest,
        rootRelativeFacadeId node
          (fileURLToPath node (projectRoot cfg) ++ rest)%string cfg = rest)
  /\ (forall facadeId,
        String.length (rootRelativeFacadeId node facadeId cfg)
        = String.length facadeId
          - String.length (fileURLToPath node (projectRoot cfg)))
  /\ (forall facadeId,
        String.length facadeId
        <= String.length (fileURLToPath node (projectRoot cfg)) ->
        rootRelativeFacadeId node facadeId cfg = "").
Proof.
  unfold rootRelativeFacadeId. split; [|split; [|split]].
  - intros pre rest <-. apply slice_app.
  - intros rest. apply slice_app.
  - intros facadeId. apply slice_length.
  - intros facadeId Hle.
    pose proof (slice_length
                  (String.length (fileURLToPath node (projectRoot cfg)))
                  facadeId) as Hl.
    destruct (slice _ facadeId); [reflexivity|cbn in Hl; lia].
Qed.

Lemma rootRelativeFacadeId_strips_root_witness :
  String.length "C:\dev"
  = String.length (fileURLToPath Posix.node (projectRoot config))
  /\ rootRelativeFacadeId Posix.node
       ("C:\dev" ++ "src/pages/index.astro")%string config
     = "src/pages/index.astro"
  /\ String.length "/proj"
     <= String.length (fileURLToPath Posix.node (projectRoot config))
  /\ rootRelativeFacadeId Posix.node "/proj" config = "".
Proof.
  destruct (rootRelativeFacadeId_strips_root Posix.node config)
    as (Hany & _ & _ & Hshort).
  split; [reflexivity|]. split; [apply Hany; reflexivity|].
  split; [cbn; lia|]. apply Hshort. cbn. lia.
Defined.

(** X9: with the platform's [posix.relative], whatever the working
    directory and the page, a bundle file none of whose path segments
    begins with a dot resolves to a path that begins with [./] or
    [../], or to [..] itself. *)
Theorem resolve_relative_shape (toPath : string -> string) (cwd : string)
  (I : BuildInternals) (pathname specifier hashedFilePath : string) :
  JsMap.get specifier (entrySpecifierToBundleMap I) = Some hashedFilePath ->
  noDotSegments hashedFilePath = true ->
  exists resolved,
    resolve (mkNode toPath (Posix.relative cwd)) I pathname specifier
    = Ok resolved
    /\ (beginsDotSlash resolved = true \/ resolved = "..").
Proof.
  intros Hget Hseg. unfold resolve. rewrite Hget.
  cbn [posix_relative]. unfold Posix.relative.
  assert (Hto : Forall noDot
                  (Posix.resolveSegments cwd ("/" ++ hashedFilePath)%string)).
  { unfold Posix.resolveSegments. cbn [firstCharIs append Ascii.eqb].
    cbn. apply normalizeSegments_noDot; [|constructor].
    now apply noDotSegments_Forall. }
  pose proof (dropCommon_noDot (Posix.resolveSegments cwd pathname) _ Hto)
    as Hdown.
  destruct (Posix.dropCommon _ _) as [up down]. cbn [snd] in Hdown.
  destruct up as [|u up].
  - cbn [map app]. rewrite (join_noDot down Hdown).
    eexists. split; [reflexivity|]. now left.
  - destruct (join_up (u :: up) down) as [Hdot Hrel]; [discriminate|].
    cbv zeta in Hdot, Hrel. rewrite Hdot.
    eexists. split; [reflexivity|]. exact Hrel.
Qed.

Lemma resolve_relative_shape_witness :
  JsMap.get "/src/pages/index.astro"
            (entrySpecifierToBundleMap siteInternals)
  = Some "assets/index.abc.js"
  /\ noDotSegments "assets/index.abc.js" = true
  /\ exists resolved,
       resolve (mkNode Posix.fileURLToPath (Posix.relative "/proj"))
               siteInternals "/blog/first" "/src/pages/index.astro"
       = Ok resolved
       /\ (beginsDotSlash resolved = true \/ resolved = "..").
Proof.
  split; [reflexivity|]. split; [reflexivity|].
  apply (resolve_relative_shape Posix.fileURLToPath "/proj" siteInternals
           "/blog/first" "/src/pages/index.astro" "assets/index.abc.js");
    reflexivity.
Defined.

End LookupMore.

(** ** [addPageName] and the scripts of [generatePath] *)

Module PathMore.
Import JsString Fixtures Scenarios.

Lemma endsWithChar_cons c a (s : string) :
  s <> EmptyString -> endsWithChar c (String a s) = endsWithChar c s.
Proof. destruct s; [congruence|reflexivity]. Qed.

Lemma endsWithChar_app_char c : forall s : string,
  endsWithChar c (s ++ String c "") = true.
Proof.
  induction s as [|a s IH]; [cbn; apply Ascii.eqb_refl|].
  cbn [append]. rewrite endsWithChar_cons; [exact IH|now destruct s].
Qed.

Lemma withTrailingSlash_ends pathname :
  endsWithChar "/" (withTrailingSlash pathname) = true.
Proof.
  unfold withTrailingSlash.
  destruct (endsWithChar "/" pathname) eqn:E; [exact E|].
  apply endsWithChar_app_char.
Qed.

Lemma app_eq_slash (p : string) : (p ++ "/")%string = "/" -> p = "".
Proof.
  destruct p as [|a [|b p]]; cbn; try reflexivity; discriminate.
Qed.

Section PageNames.
Variable Sigma : Type.

(** X10: [addPageName] appends one name to the page names and touches
    nothing else.  The name is empty exactly for the paths [""] and
    ["/"], and ends with a slash otherwise. *)
Theorem addPageName_name (pathname : string) (w : World Sigma) :
  exists name,
    snd (addPageName pathname w)
    = mkWorld (logs w) (fsOps w) (pageNames w ++ [name]) (arrays w) (ext w)
    /\ (name = "" <-> pathname = "" \/ pathname = "/")
    /\ (name <> "" -> endsWithChar "/" name = true).
Proof.
  exists (withoutLeadingSlash (withTrailingSlash pathname)).
  split; [reflexivity|].
  pose proof (withTrailingSlash_ends pathname) as Hends.
  unfold withoutLeadingSlash.
  destruct (withTrailingSlash pathname) as [|c t] eqn:Et; [discriminate|].
  cbn [firstCharIs slice].
  destruct (Ascii.eqb_spec c "/") as [->|Hc].
  - split.
    + split.
      * intros ->. unfold withTrailingSlash in Et.
        destruct (endsWithChar "/" pathname); [now right|].
        left. now apply app_eq_slash.
      * intros [-> | ->]; cbn in Et; congruence.
    + intros Hne. now rewrite (endsWithChar_cons "/" "/" t Hne) in Hends.
  - split; [|now intros _].
    split; [discriminate|].
    intros [-> | ->]; cbn in Et; congruence.
Qed.

(** X11: for a path that begins with a slash and says more, [/rest],
    the recorded name is [rest] with a slash at its end: [rest] itself
    when it ends with one, [rest/] otherwise. *)
Theorem addPageName_strips_leading_slash (rest : string) (w : World Sigma) :
  rest <> "" ->
  pageNames (snd (addPageName ("/" ++ rest)%string w))
  = pageNames w
    ++ [if endsWithChar "/" rest then rest else (rest ++ "/")%string].
Proof.
  intros Hne. cbn [addPageName snd pageNames]. do 2 f_equal.
  unfold withTrailingSlash. cbn [append].
  rewrite endsWithChar_cons by exact Hne.
  destruct (endsWithChar "/" rest); reflexivity.
Qed.

End PageNames.

Lemma addPageName_strips_leading_slash_witness :
  "about" <> ""
  /\ pageNames (snd (addPageName ("/" ++ "about")%string world0))
     = pageNames world0
       ++ [if endsWithChar "/" "about" then "about"
           else ("about" ++ "/")%string].
Proof.
  split; [discriminate|].
  apply (addPageName_strips_leading_slash nat "about" world0).
  discriminate.
Defined.

(** X12: of the scripts injected by the configuration, exactly those of
    stage [head-inline] are added to the scripts of a page, after the
    ones already there and in the order of the configuration, each as
    an element without properties. *)
Theorem addInjectedScripts_head_inline (injected : list InjectedScript)
  (scripts : list SSRElement) :
  addInjectedScripts injected scripts
  = scripts
    ++ map (fun script => mkElement [] (content script))
           (filter (fun script => String.eqb (stage script) "head-inline")
                   injected).
Proof.
  revert scripts.
  induction injected as [|script injected IH]; intros scripts;
    cbn [addInjectedScripts filter].
  - now rewrite app_nil_r.
  - rewrite IH. destruct (String.eqb (stage script) "head-inline");
      [|reflexivity].
    cbn [map]. now rewrite <- app_assoc.
Qed.

End PathMore.

(** ** [generatePath]: what one path writes *)

Section PathOutcomes.
Variables Sigma ComponentInstance RendererSsr : Type.
Variable node : Node.
Variable C : Collaborators Sigma ComponentInstance RendererSsr.

Local Abbreviation GPO' :=
  (GeneratePathOptions ComponentInstance RendererSsr).

(** X13: a page whose rendering ends in a redirect.  The call
    completes normally; nothing is written, no directory is made, and
    no error is logged; the page name is recorded all the same. *)
Theorem generatePath_redirect pathname opts (gopts : GPO') w links scripts
  s' :
  route_type (route (pageData gopts)) = page ->
  elementSets C opts gopts (rev (deref (linkIds gopts) w))
  = Ok (links, scripts) ->
  render C (renderOptions node pathname opts gopts links scripts) (ext w)
  = (Ok RenderResponse, s') ->
  generatePath node C pathname opts gopts w
  = (Ok tt,
     mkWorld
       (logs w ++ [LogDebug "build" ("Generating: " ++ pathname)%string])
       (fsOps w)
       (pageNames w ++ [withoutLeadingSlash (withTrailingSlash pathname)])
       (setNth (addr (linkIds gopts)) (rev (deref (linkIds gopts) w))
               (arrays w))
       s').
Proof.
  intros Hty Hsets Hrender.
  unfold generatePath, bind. rewrite generatePathHead_eq, Hsets.
  unfold tryCatch, generatePathTry, bind, liftExt. rewrite Hty.
  cbn [RouteType_eqb ext]. rewrite Hrender. reflexivity.
Qed.

(** X14: a page that renders to HTML and whose output location can be
    computed and written.  The call makes the directory, then writes
    the file with the HTML, once each and in this order; nothing is
    logged but the debug line. *)
Theorem generatePath_page_written pathname opts (gopts : GPO') w
  links scripts html outFolder outFile s1 s2 s3 :
  route_type (route (pageData gopts)) = page ->
  elementSets C opts gopts (rev (deref (linkIds gopts) w))
  = Ok (links, scripts) ->
  render C (renderOptions node pathname opts gopts links scripts) (ext w)
  = (Ok (RenderHtml html), s1) ->
  getOutFolder C (astroConfig opts) pathname page = Ok outFolder ->
  getOutFile C (astroConfig opts) outFolder pathname page = Ok outFile ->
  fs_mkdir C outFolder s1 = (Ok tt, s2) ->
  fs_writeFile C outFile html s2 = (Ok tt, s3) ->
  generatePath node C pathname opts gopts w
  = (Ok tt,
     mkWorld
       (logs w ++ [LogDebug "build" ("Generating: " ++ pathname)%string])
       (fsOps w ++ [Mkdir outFolder; WriteFile outFile html])
       (pageNames w ++ [withoutLeadingSlash (withTrailingSlash pathname)])
       (setNth (addr (linkIds gopts)) (rev (deref (linkIds gopts) w))
               (arrays w))
       s3).
Proof.
  intros Hty Hsets Hrender Hfolder Hfile Hmkdir Hwrite.
  unfold generatePath, bind. rewrite generatePathHead_eq, Hsets.
  unfold tryCatch, generatePathTry, bind, liftExt, liftResult, mkdir,
    writeFile, bind, liftExt, record.
  rewrite Hty. cbn [RouteType_eqb ext]. rewrite Hrender.
  cbn [ret]. rewrite Hfolder, Hfile. cbn [ext]. rewrite Hmkdir.
  cbn [ext fsOps logs pageNames arrays]. rewrite Hwrite.
  cbn [ext fsOps logs pageNames arrays]. rewrite <- app_assoc. reflexivity.
Qed.

(** X15: an endpoint whose handler answers with a body.  The body is
    written like the HTML of a page; no page name is recorded. *)
Theorem generatePath_endpoint_written pathname opts (gopts : GPO') w
  links scripts body outFolder outFile s1 s2 s3 :
  route_type (route (pageData gopts)) = endpoint ->
  elementSets C opts gopts (rev (deref (linkIds gopts) w))
  = Ok (links, scripts) ->
  callEndpoint C (mod_ gopts)
    (renderOptions node pathname opts gopts links scripts) (ext w)
  = (Ok (EndpointSimple body), s1) ->
  getOutFolder C (astroConfig opts) pathname endpoint = Ok outFolder ->
  getOutFile C (astroConfig opts) outFolder pathname endpoint = Ok outFile ->
  fs_mkdir C outFolder s1 = (Ok tt, s2) ->
  fs_writeFile C outFile body s2 = (Ok tt, s3) ->
  generatePath node C pathname opts gopts w
  = (Ok tt,
     mkWorld
       (logs w ++ [LogDebug "build" ("Generating: " ++ pathname)%string])
       (fsOps w ++ [Mkdir outFolder; WriteFile outFile body])
       (pageNames w)
       (setNth (addr (linkIds gopts)) (rev (deref (linkIds gopts) w))
               (arrays w))
       s3).
Proof.
  intros Hty Hsets Hcall Hfolder Hfile Hmkdir Hwrite.
  unfold generatePath, bind. rewrite generatePathHead_eq, Hsets.
  unfold tryCatch, generatePathTry, bind, liftExt, liftResult, mkdir,
    writeFile, bind, liftExt, record.
  rewrite Hty. cbn [RouteType_eqb ext]. rewrite Hcall.
  cbn [ret]. rewrite Hfolder, Hfile. cbn [ext]. rewrite Hmkdir.
  cbn [ext fsOps logs pageNames arrays]. rewrite Hwrite.
  cbn [ext fsOps logs pageNames arrays]. rewrite <- app_assoc. reflexivity.
Qed.

(** X16: the directory of a rendered page cannot be made.  The file is
    not written and [writeFile] is not even called; the error is
    logged and the call completes normally. *)
Theorem generatePath_mkdir_fails pathname opts (gopts : GPO') w
  links scripts html outFolder outFile e s1 s2 :
  route_type (route (pageData gopts)) = page ->
  elementSets C opts gopts (rev (deref (linkIds gopts) w))
  = Ok (links, scripts) ->
  render C (renderOptions node pathname opts gopts links scripts) (ext w)
  = (Ok (RenderHtml html), s1) ->
  getOutFolder C (astroConfig opts) pathname page = Ok outFolder ->
  getOutFile C (astroConfig opts) outFolder pathname page = Ok outFile ->
  fs_mkdir C outFolder s1 = (Throw e, s2) ->
  generatePath node C pathname opts gopts w
  = (Ok tt,
     mkWorld
       (logs w
        ++ [LogDebug "build" ("Generating: " ++ pathname)%string;
            LogError "build" "Error rendering:" e])
       (fsOps w)
       (pageNames w ++ [withoutLeadingSlash (withTrailingSlash pathname)])
       (setNth (addr (linkIds gopts)) (rev (deref (linkIds gopts) w))
               (arrays w))
       s2).
Proof.
  intros Hty Hsets Hrender Hfolder Hfile Hmkdir.
  unfold generatePath, bind. rewrite generatePathHead_eq, Hsets.
  unfold tryCatch, generatePathTry, bind, liftExt, liftResult, mkdir,
    writeFile, bind, liftExt, record.
  rewrite Hty. cbn [RouteType_eqb ext]. rewrite Hrender.
  cbn [ret]. rewrite Hfolder, Hfile. cbn [ext]. rewrite Hmkdir.
  unfold error, log. cbn [ext fsOps logs pageNames arrays].
  rewrite <- app_assoc. reflexivity.
Qed.

(** X17: whether a page name is recorded depends on the kind of the
    route only, not on how the call ends: one name for a page, also
    when rendering fails or redirects, none for an endpoint. *)
Theorem generatePath_page_name_recorded pathname opts (gopts : GPO') w :
  pageNames (snd (generatePath node C pathname opts gopts w))
  = match route_type (route (pageData gopts)) with
    | page =>
        pageNames w ++ [withoutLeadingSlash (withTrailingSlash pathname)]
    | endpoint => pageNames w
    end.
Proof.
  rewrite generatePath_pageNames.
  now destruct (route_type (route (pageData gopts))).
Qed.

End PathOutcomes.

(** ** The whole run: what is only ever added to *)

Lemma setNth_length {A} (a : A) : forall n l,
  length (setNth n a l) = length l.
Proof.
  induction n as [|n IH]; intros [|x l]; cbn; try reflexivity.
  now rewrite IH.
Qed.

Lemma nth_setNth_other {A} (d a : A) : forall n k l,
  k <> n -> nth k (setNth n a l) d = nth k l d.
Proof.
  induction n as [|n IH]; intros [|k] [|x l] Hk; cbn;
    try reflexivity; try congruence.
  apply IH. congruence.
Qed.

Section GrowthFacts.
Variable Sigma : Type.

Lemma appendOnly_refl (w : World Sigma) : appendOnly w w.
Proof.
  repeat split; try (exists []; now rewrite app_nil_r); auto.
Qed.

Lemma appendOnly_trans (w1 w2 w3 : World Sigma) :
  appendOnly w1 w2 -> appendOnly w2 w3 -> appendOnly w1 w3.
Proof.
  intros ([l1 Hl1] & [f1 Hf1] & [n1 Hn1] & Hlen1 & Ha1)
         ([l2 Hl2] & [f2 Hf2] & [n2 Hn2] & Hlen2 & Ha2).
  repeat split.
  - exists (l1 ++ l2). now rewrite Hl2, Hl1, app_assoc.
  - exists (f1 ++ f2). now rewrite Hf2, Hf1, app_assoc.
  - exists (n1 ++ n2). now rewrite Hn2, Hn1, app_assoc.
  - lia.
  - intros a Ha.
    destruct (Ha1 a Ha) as [E1|E1], (Ha2 a ltac:(lia)) as [E2|E2];
      rewrite E2, E1, ?rev_involutive; auto.
Qed.

Lemma sameStore_appendOnly (w w' : World Sigma) :
  sameStore w w' ->
  (exists l, logs w' = logs w ++ l) ->
  (exists f, fsOps w' = fsOps w ++ f) ->
  appendOnly w w'.
Proof.
  intros [Ha Hp] Hl Hf. repeat split; try assumption.
  - exists []. now rewrite app_nil_r.
  - rewrite Ha. lia.
  - intros a _. left. now rewrite Ha.
Qed.

Lemma growsOnly_ret {A} (a : A) : growsOnly (@ret Sigma A a).
Proof. intros w. apply appendOnly_refl. Qed.

Lemma growsOnly_throw {A} e : growsOnly (@throw Sigma A e).
Proof. intros w. apply appendOnly_refl. Qed.

Lemma growsOnly_liftResult {A} (r : Result A) :
  growsOnly (@liftResult Sigma A r).
Proof. intros w. apply appendOnly_refl. Qed.

Lemma growsOnly_liftExt {A} (c : Ext Sigma A) : growsOnly (liftExt c).
Proof.
  intros w. unfold liftExt. destruct (c (ext w)) as [r s].
  apply sameStore_appendOnly;
    [now split| |]; exists []; cbn; now rewrite app_nil_r.
Qed.

Lemma growsOnly_log entry : growsOnly (@log Sigma entry).
Proof.
  intros w. apply sameStore_appendOnly; [now split| |]; cbn.
  - now exists [entry].
  - exists []. now rewrite app_nil_r.
Qed.

Lemma growsOnly_record op : growsOnly (@record Sigma op).
Proof.
  intros w. apply sameStore_appendOnly; [now split| |]; cbn.
  - exists []. now rewrite app_nil_r.
  - now exists [op].
Qed.

Lemma growsOnly_addPageName pathname :
  growsOnly (@addPageName Sigma pathname).
Proof.
  intros w. repeat split; cbn; try (exists []; now rewrite app_nil_r);
    eauto.
Qed.

Lemma growsOnly_newArray a : growsOnly (@newArray Sigma a).
Proof.
  intros w. repeat split; cbn; try (exists []; now rewrite app_nil_r).
  - rewrite length_app. lia.
  - intros k Hk. left. now rewrite app_nth1.
Qed.

Lemma growsOnly_reverse r : growsOnly (@reverse Sigma r).
Proof.
  intros w. repeat split; cbn; try (exists []; now rewrite app_nil_r).
  - now rewrite setNth_length.
  - intros k Hk. unfold deref.
    destruct (Nat.eq_dec k (addr r)) as [->|Hne].
    + right. rewrite nth_setNth_same.
      apply Nat.ltb_lt in Hk. now rewrite Hk.
    + left. now apply nth_setNth_other.
Qed.

Lemma growsOnly_bind {A B} (m : M Sigma A) (k : A -> M Sigma B) :
  growsOnly m -> (forall a, growsOnly (k a)) -> growsOnly (bind m k).
Proof.
  intros Hm Hk w. unfold bind. specialize (Hm w).
  destruct (m w) as [[a|e] w1]; cbn in *; [|exact Hm].
  eapply appendOnly_trans; [exact Hm|apply Hk].
Qed.

Lemma growsOnly_tryCatch {A} (m : M Sigma A) h :
  growsOnly m -> (forall e, growsOnly (h e)) -> growsOnly (tryCatch m h).
Proof.
  intros Hm Hh w. unfold tryCatch. specialize (Hm w).
  destruct (m w) as [[a|e] w1]; cbn in *; [exact Hm|].
  eapply appendOnly_trans; [exact Hm|apply Hh].
Qed.

Lemma growsOnly_settle {A} (m : M Sigma A) :
  growsOnly m -> growsOnly (settle m).
Proof.
  intros Hm w. unfold settle. specialize (Hm w).
  now destruct (m w) as [r w1].
Qed.

Lemma growsOnly_forEach {A} (body : A -> M Sigma unit) :
  (forall x, growsOnly (body x)) -> forall xs, growsOnly (forEach xs body).
Proof.
  intros Hb. induction xs as [|x xs IH]; cbn [forEach].
  - apply growsOnly_ret.
  - apply growsOnly_bind; [apply Hb|intros _; exact IH].
Qed.

Lemma growsOnly_mapM {A B} (f : A -> M Sigma B) :
  (forall x, growsOnly (f x)) -> forall xs, growsOnly (mapM f xs).
Proof.
  intros Hf. induction xs as [|x xs IH]; cbn [mapM].
  - apply growsOnly_ret.
  - apply growsOnly_bind; [apply Hf|intros y].
    apply growsOnly_bind; [exact IH|intros ys; apply growsOnly_ret].
Qed.

End GrowthFacts.

Create HintDb growth.
#[global] Hint Resolve growsOnly_ret growsOnly_throw growsOnly_liftResult
  growsOnly_liftExt growsOnly_log growsOnly_record growsOnly_addPageName
  growsOnly_newArray growsOnly_reverse : growth.

Ltac growth :=
  repeat first
    [ solve [auto with growth]
    | apply growsOnly_bind; [|intros ?]
    | apply growsOnly_tryCatch; [|intros ?]
    | apply growsOnly_settle
    | apply growsOnly_forEach; intros ?
    | apply growsOnly_mapM; intros ?
    | match goal with
      | |- growsOnly (match ?x with _ => _ end) => destruct x
      | |- growsOnly (if ?b then _ else _) => destruct b
      | |- growsOnly (let '(_, _) := ?x in _) => destruct x
      end ].

Section RunFacts.
Variables Sigma ComponentInstance RendererSsr : Type.
Variable node : Node.
Variable C : Collaborators Sigma ComponentInstance RendererSsr.

Local Abbreviation GPO2 :=
  (GeneratePathOptions ComponentInstance RendererSsr).

Lemma growsOnly_generatePath pathname opts (gopts : GPO2) :
  growsOnly (generatePath node C pathname opts gopts).
Proof.
  unfold generatePath, generatePathHead, generatePathTry, mkdir, writeFile,
    info, debug, error.
  growth.
Qed.

Lemma growsOnly_generateBatch opts (gopts : GPO2) batch :
  growsOnly (generateBatch node C opts gopts batch).
Proof.
  pose proof (fun p => growsOnly_generatePath p opts gopts) as Hpath.
  unfold generateBatch, info. growth.
Qed.

Lemma growsOnly_generatePage output opts I map rs :
  growsOnly (generatePage node C output opts I map rs).
Proof.
  pose proof growsOnly_generateBatch as Hbatch.
  unfold generatePage, info. growth.
Qed.

(** X18: a run only adds.  Whatever happens, and however the run
    ends, what was logged, written and recorded as page names before is
    still there in the same order with the new entries after it; no
    shared array is lost, and each still holds its stylesheets, in
    their order or in the opposite one. *)
Theorem generatePages_only_adds result opts I map (w : World Sigma) :
  let w' := snd (generatePages node C result opts I map w) in
  (exists l, logs w' = logs w ++ l)
  /\ (exists f, fsOps w' = fsOps w ++ f)
  /\ (exists n, pageNames w' = pageNames w ++ n)
  /\ length (arrays w) <= length (arrays w')
  /\ forall a, a < length (arrays w) ->
       nth a (arrays w') [] = nth a (arrays w) []
       \/ nth a (arrays w') [] = rev (nth a (arrays w) []).
Proof.
  cbv zeta.
  assert (H : growsOnly (generatePages node C result opts I map)).
  { pose proof growsOnly_generatePage as Hpage.
    unfold generatePages, loadRenderers, loadRenderer, info. growth. }
  exact (H w).
Qed.

(** *** A batch and the shared array *)

(** The calls of a batch are all made, whatever their outcomes. *)
Lemma mapM_settle_cons {X A} (g : X -> M Sigma A) p batch w :
  mapM (fun p => settle (g p)) (p :: batch) w
  = match mapM (fun p => settle (g p)) batch (snd (g p w)) with
    | (Ok rs, w2) => (Ok (fst (g p w) :: rs), w2)
    | (Throw e, w2) => (Throw e, w2)
    end.
Proof.
  cbn [mapM]. unfold bind at 1. unfold settle at 1.
  destruct (g p w) as [r w1]. cbn [fst snd]. unfold bind at 1.
  now destruct (mapM _ batch w1) as [[rs|e] w2].
Qed.

Lemma mapM_settle_ok {X A} (g : X -> M Sigma A) : forall batch w,
  exists rs, fst (mapM (fun p => settle (g p)) batch w) = Ok rs.
Proof.
  induction batch as [|p batch IH]; intros w; [now exists []|].
  rewrite mapM_settle_cons.
  destruct (IH (snd (g p w))) as [rs Hrs].
  destruct (mapM _ batch _) as [r w2]. cbn [fst] in Hrs. subst r.
  cbn [fst]. eauto.
Qed.

Lemma mapM_settle_snd {X A} (g : X -> M Sigma A) p batch w :
  snd (mapM (fun p => settle (g p)) (p :: batch) w)
  = snd (mapM (fun p => settle (g p)) batch (snd (g p w))).
Proof.
  rewrite mapM_settle_cons.
  now destruct (mapM _ batch _) as [[rs|e] w2].
Qed.

Lemma generateBatch_store opts (gopts : GPO2) batch w :
  sameStore
    (snd (mapM (fun p => settle (generatePath node C p opts gopts)) batch w))
    (snd (generateBatch node C opts gopts batch w)).
Proof.
  unfold generateBatch. unfold bind at 1.
  destruct (mapM _ batch w) as [[rs|e] w1]; cbn [snd];
    [|apply sameStore_refl].
  unfold bind, liftResult.
  destruct (promiseAll rs) as [l|e]; [|apply sameStore_refl].
  apply (forEach_info_ok Sigma (fun path => ("    | " ++ path)%string)).
Qed.

Lemma flips_arrays opts (gopts : GPO2) : forall batch w,
  arrays
    (snd (mapM (fun p => settle (generatePath node C p opts gopts)) batch w))
  = Nat.iter (length batch)
      (fun A => setNth (addr (linkIds gopts))
                       (rev (nth (addr (linkIds gopts)) A [])) A)
      (arrays w).
Proof.
  induction batch as [|p batch IH]; intros w; [reflexivity|].
  rewrite mapM_settle_snd, IH, generatePath_arrays.
  cbn [length]. rewrite Nat.iter_succ_r. reflexivity.
Qed.

Lemma setNth_nth_id {A} (d : A) : forall n l, setNth n (nth n l d) l = l.
Proof.
  induction n as [|n IH]; intros [|x l]; cbn; try reflexivity.
  now rewrite IH.
Qed.

Lemma iter_flip {A} n (l : list (list A)) : forall k,
  Nat.iter k (fun L => setNth n (rev (nth n L [])) L) l
  = if Nat.even k then l else setNth n (rev (nth n l [])) l.
Proof.
  induction k as [|k IH]; [reflexivity|].
  rewrite Nat.iter_succ, IH, Nat.even_succ. unfold Nat.odd.
  destruct (Nat.even k); cbn [negb]; [reflexivity|].
  rewrite nth_setNth_rev, rev_involutive, setNth_setNth.
  apply setNth_nth_id.
Qed.

(** X19: every call of a batch is made and every call reverses the
    array of the page, so after a batch of an even number of paths the
    array is as it was, after a batch of an odd number it is reversed;
    whether the batch succeeded makes no difference. *)
Theorem generateBatch_reversal_parity opts (gopts : GPO2) batch w :
  deref (linkIds gopts) (snd (generateBatch node C opts gopts batch w))
  = if Nat.even (length batch) then deref (linkIds gopts) w
    else rev (deref (linkIds gopts) w).
Proof.
  unfold deref.
  destruct (generateBatch_store opts gopts batch w) as [-> _].
  rewrite flips_arrays, iter_flip.
  destruct (Nat.even (length batch)); [reflexivity|].
  apply nth_setNth_rev.
Qed.

Lemma batch_pageNames opts (gopts : GPO2) : forall batch w,
  pageNames
    (snd (mapM (fun p => settle (generatePath node C p opts gopts)) batch w))
  = if RouteType_eqb (route_type (route (pageData gopts))) page
    then pageNames w
         ++ List.map (fun p => withoutLeadingSlash (withTrailingSlash p)) batch
    else pageNames w.
Proof.
  induction batch as [|p batch IH]; intros w.
  - cbn. destruct (RouteType_eqb _ _); now rewrite ?app_nil_r.
  - rewrite mapM_settle_snd, IH, generatePath_pageNames.
    destruct (RouteType_eqb _ _); [|reflexivity].
    cbn [List.map]. now rewrite <- app_assoc.
Qed.



(** X26: an error of the element sets of the first path of a batch is
    the error of the batch, and nothing is reported for the batch; yet
    the other calls of the batch have been made all the same: for a
    page route the names of all the paths of the batch are recorded. *)
Theorem generateBatch_first_path_fails opts (gopts : GPO2) p batch w e :
  elementSets C opts gopts (rev (deref (linkIds gopts) w)) = Throw e ->
  fst (generateBatch node C opts gopts (p :: batch) w) = Throw e
  /\ pageNames (snd (generateBatch node C opts gopts (p :: batch) w))
     = match route_type (route (pageData gopts)) with
       | page =>
           pageNames w
           ++ List.map (fun p => withoutLeadingSlash (withTrailingSlash p))
                       (p :: batch)
       | endpoint => pageNames w
       end.
Proof.
  intros Hsets.
  destruct (generateBatch_store opts gopts (p :: batch) w) as [_ Hnames].
  rewrite Hnames, batch_pageNames. split.
  - unfold generateBatch. unfold bind at 1. rewrite mapM_settle_cons.
    destruct (generatePath_head_error Sigma ComponentInstance RendererSsr
                node C p opts gopts w e Hsets) as [Hthrow _].
    rewrite Hthrow.
    destruct (mapM_settle_ok (fun p => generatePath node C p opts gopts)
                batch (snd (generatePath node C p opts gopts w)))
      as [rs Hrs].
    destruct (mapM _ batch _) as [r w2]. cbn [fst] in Hrs. now subst r.
  - now destruct (route_type (route (pageData gopts))).
Qed.

(** *** A page: every path is started *)

Lemma elementSets_total opts (gopts : GPO2) :
  (forall ids, exists links,
     createLinkStylesheetElementSet C ids
       (buildOptions_site (astroConfig opts)) = Ok links) ->
  (forall ids, exists scripts,
     createModuleScriptElementWithSrcSet C ids
       (buildOptions_site (astroConfig opts)) = Ok scripts) ->
  forall ids, exists sets, elementSets C opts gopts ids = Ok sets.
Proof.
  intros Hl Hs ids. unfold elementSets.
  destruct (Hl ids) as [links ->].
  match goal with
  | |- context [createModuleScriptElementWithSrcSet C ?h ?site] =>
      destruct (Hs h) as [scripts ->]
  end.
  eauto.
Qed.

Lemma forEach_batches_ok opts (gopts : GPO2) :
  (forall ids, exists sets, elementSets C opts gopts ids = Ok sets) ->
  forall batches w,
    fst (forEach batches (generateBatch node C opts gopts) w) = Ok tt
    /\ pageNames (snd (forEach batches (generateBatch node C opts gopts) w))
       = if RouteType_eqb (route_type (route (pageData gopts))) page
         then pageNames w
              ++ map (fun p => withoutLeadingSlash (withTrailingSlash p))
                     (concat batches)
         else pageNames w.
Proof.
  intros Hsets. induction batches as [|b batches IH]; intros w.
  - cbn. destruct (RouteType_eqb _ _); now rewrite ?app_nil_r.
  - cbn [forEach concat]. unfold bind.
    destruct (generateBatch_never_throws Sigma ComponentInstance RendererSsr
                node C opts gopts Hsets b w) as [Hok Hnames].
    destruct (generateBatch node C opts gopts b w) as [[[]|e] w1];
      cbn [fst snd] in *; [|discriminate].
    destruct (IH w1) as [IH1 IH2]. split; [exact IH1|].
    rewrite IH2, Hnames. destruct (RouteType_eqb _ _); [|reflexivity].
    now rewrite map_app, app_assoc.
Qed.

(** X20: a page whose element sets can always be built.  When the
    page record is found and the compiled module loads, the page ends
    normally whatever happens while its paths are rendered and
    written, and every path has been started: for a page route the
    names of all its paths are recorded, in their order. *)
Theorem generatePage_all_paths_started output opts I map rs w
  outRoot url facadeId data module s :
  (forall ids, exists links,
     createLinkStylesheetElementSet C ids
       (buildOptions_site (astroConfig opts)) = Ok links) ->
  (forall ids, exists scripts,
     createModuleScriptElementWithSrcSet C ids
       (buildOptions_site (astroConfig opts)) = Ok scripts) ->
  getOutRoot C (astroConfig opts) = Ok outRoot ->
  newURL C ("./" ++ fileName output)%string outRoot = Ok url ->
  facadeModuleId output = Some facadeId ->
  getByFacadeId facadeId map = Some data ->
  importPage C url (ext w) = (Ok module, s) ->
  fst (generatePage node C output opts I map rs w) = Ok tt
  /\ pageNames (snd (generatePage node C output opts I map rs w))
     = pageNames w
       ++ match route_type (route data) with
          | page =>
              List.map (fun p => withoutLeadingSlash (withTrailingSlash p))
                       (paths data)
          | endpoint => []
          end.
Proof.
  intros Hlinks Hscripts Hroot Hurl Hf Hdata Himport.
  pose (body := fun linkIds : ArrayRef =>
          bind (liftExt (importPage C url))
            (fun compiledModule =>
               let generationOptions : GPO2 :=
                 {| pageData := data; internals := I; linkIds := linkIds;
                    hoistedId :=
                      orElse
                        (getByFacadeId facadeId (facadeIdToHoistedEntryMap I))
                        None;
                    mod_ := compiledModule; renderers := rs |} in
               bind
                 (info
                    ((if RouteType_eqb (route_type (route data)) page
                      then "</>" else "{-}")
                     ++ " " ++ component (route data))%string)
                 (fun _ =>
                    forEach
                      (Throttle.batches MAX_CONCURRENT_RENDERS (paths data))
                      (generateBatch node C opts generationOptions)))).
  assert (Heq : generatePage node C output opts I map rs w
                = bind
                    (match getByFacadeId facadeId (facadeIdToAssetsMap I) with
                     | Some ids => ret ids
                     | None => newArray []
                     end)
                    body w).
  { unfold generatePage, bind, liftResult.
    rewrite Hroot, Hurl, Hf, Hdata. reflexivity. }
  rewrite Heq. clear Heq.
  assert (Hgo : forall ids w0,
            pageNames w0 = pageNames w -> ext w0 = ext w ->
            fst (body ids w0) = Ok tt
            /\ pageNames (snd (body ids w0))
               = pageNames w
                 ++ match route_type (route data) with
                    | page =>
                        List.map
                          (fun p =>
                             withoutLeadingSlash (withTrailingSlash p))
                          (paths data)
                    | endpoint => []
                    end).
  { intros ids w0 Hn He. unfold body, bind, liftExt, info, log.
    rewrite He, Himport. cbv beta iota zeta.
    match goal with
    | |- context [forEach ?bs (generateBatch node C opts ?g) ?w1] =>
        destruct (forEach_batches_ok opts g
                    (elementSets_total opts g Hlinks Hscripts) bs w1)
          as [H1 H2]
    end.
    split; [exact H1|]. etransitivity; [exact H2|].
    cbn [pageNames pageData].
    rewrite Hn, ThrottleFacts.batches_eq, ThrottleFacts.concat_batchesFrom.
    destruct (route_type (route data)); cbn [RouteType_eqb app];
      [reflexivity|now rewrite app_nil_r]. }
  destruct (getByFacadeId facadeId (facadeIdToAssetsMap I)) as [ids|].
  - exact (Hgo ids w eq_refl eq_refl).
  - exact (Hgo (Ref (length (arrays w)))
               (mkWorld (logs w) (fsOps w) (pageNames w)
                        (arrays w ++ [[]]) (ext w))
               eq_refl eq_refl).
Qed.

(** *** The run: which artifacts are generated *)

Lemma forEach_filter {A} (keep : A -> bool) (f : A -> M Sigma unit) :
  forall xs w,
    forEach xs (fun x => if keep x then f x else ret tt) w
    = forEach (filter keep xs) (fun x => if keep x then f x else ret tt) w.
Proof.
  induction xs as [|x xs IH]; intros w; [reflexivity|].
  cbn [forEach filter]. destruct (keep x) eqn:E.
  - cbn [forEach]. rewrite E. unfold bind.
    destruct (f x w) as [[[]|e] w1]; [apply IH|reflexivity].
  - unfold bind, ret. apply IH.
Qed.

(** X21: the artifacts that the classifier rejects play no part in the
    run: generating from a build output is generating from its page
    chunks alone, in their order. *)
Theorem generatePages_skips_non_pages result opts I map (w : World Sigma) :
  generatePages node C result opts I map w
  = generatePages node C
      (filter (fun output => chunkIsPage node (astroConfig opts) output I)
              result)
      opts I map w.
Proof.
  unfold generatePages, bind.
  destruct (info _ w) as [[[]|e] w0]; [|reflexivity].
  destruct (loadRenderers C (astroConfig opts) w0) as [[rs|e] w1];
    [|reflexivity].
  apply (forEach_filter
           (fun output => chunkIsPage node (astroConfig opts) output I)
           (fun output => generatePage node C output opts I map rs)).
Qed.

(** *** Loading the renderers and the page module *)

Lemma loadRenderer_sameButExt r cfg w :
  sameButExt w (snd (loadRenderer C r cfg w)).
Proof.
  unfold loadRenderer, bind, liftResult, liftExt, ret.
  destruct (resolveDependency C (serverEntrypoint r) cfg) as [entry|e];
    [|now repeat split].
  cbn [ext]. destruct (importRenderer C entry (ext w)) as [[m|e] s1];
    now repeat split.
Qed.

Lemma loadRenderer_ok r cfg w loaded :
  fst (loadRenderer C r cfg w) = Ok loaded ->
  renderer RendererSsr loaded = r.
Proof.
  unfold loadRenderer, bind, liftResult, liftExt, ret.
  destruct (resolveDependency C (serverEntrypoint r) cfg) as [entry|e];
    [|discriminate].
  cbn [ext]. destruct (importRenderer C entry (ext w)) as [[m|e] s1];
    [|discriminate].
  cbn. intros H. now injection H as <-.
Qed.

Lemma loadRenderer_unresolved r cfg w e :
  resolveDependency C (serverEntrypoint r) cfg = Throw e ->
  fst (loadRenderer C r cfg w) = Throw e.
Proof.
  intros H. unfold loadRenderer, bind, liftResult. now rewrite H.
Qed.

Lemma settled_renderers cfg : forall configured w,
  exists promises,
    fst (mapM (fun r => settle (loadRenderer C r cfg)) configured w)
    = Ok promises
    /\ sameButExt w
         (snd (mapM (fun r => settle (loadRenderer C r cfg)) configured w))
    /\ (forall loaded, promiseAll promises = Ok loaded ->
          List.map (renderer RendererSsr) loaded = configured)
    /\ (forall r e, In r configured ->
          resolveDependency C (serverEntrypoint r) cfg = Throw e ->
          exists e', promiseAll promises = Throw e').
Proof.
  induction configured as [|r configured IH]; intros w.
  - exists []. repeat split; cbn.
    + intros loaded H. now injection H as <-.
    + intros r e [].
  - rewrite mapM_settle_cons.
    pose proof (loadRenderer_sameButExt r cfg w) as (Hl & Hf & Hp & Ha).
    destruct (IH (snd (loadRenderer C r cfg w)))
      as (promises & Hok & (Hl' & Hf' & Hp' & Ha') & Hall & Hfail).
    destruct (mapM _ configured _) as [[rs|e0] w2]; cbn [fst snd] in *;
      [|discriminate].
    injection Hok as ->.
    exists (fst (loadRenderer C r cfg w) :: promises).
    split; [reflexivity|]. split; [repeat split; congruence|]. split.
    + intros loaded. cbn [promiseAll].
      destruct (fst (loadRenderer C r cfg w)) as [one|e1] eqn:E1;
        [|discriminate].
      destruct (promiseAll promises) as [rest|e1]; [|discriminate].
      intros H. injection H as <-. cbn [List.map].
      f_equal; [now apply (loadRenderer_ok r cfg w)|now apply Hall].
    + intros r' e [<-|Hin] Hthrow; cbn [promiseAll].
      * rewrite (loadRenderer_unresolved r cfg w e Hthrow). eauto.
      * destruct (fst (loadRenderer C r cfg w)) as [one|e1]; [|eauto].
        destruct (Hfail r' e Hin Hthrow) as [e' ->]. eauto.
Qed.

(** X22: when the renderers load, there is one loaded renderer for
    each renderer of the configuration, in the order of the
    configuration, each with the fields of the renderer it was loaded
    for. *)
Theorem loadRenderers_one_per_renderer cfg (w : World Sigma) loaded w' :
  loadRenderers C cfg w = (Ok loaded, w') ->
  List.map (renderer RendererSsr) loaded = ctx_renderers cfg.
Proof.
  unfold loadRenderers, bind, liftResult.
  destruct (settled_renderers cfg (ctx_renderers cfg) w)
    as (promises & Hok & _ & Hall & _).
  destruct (mapM _ (ctx_renderers cfg) w) as [[rs|e] w1];
    cbn [fst] in Hok; [|discriminate].
  injection Hok as ->. intros H. apply Hall.
  now injection H as -> _.
Qed.

(** X23: a renderer whose server entry point cannot be resolved is
    fatal.  The run ends with an error before any page is generated:
    only the heading is logged, nothing is written, no page name is
    recorded and no array is touched. *)
Theorem generatePages_renderer_unresolved result opts I map
  (w : World Sigma) r e :
  In r (ctx_renderers (astroConfig opts)) ->
  resolveDependency C (serverEntrypoint r) (astroConfig opts) = Throw e ->
  (exists e', fst (generatePages node C result opts I map w) = Throw e')
  /\ sameButExt
       (mkWorld (logs w ++ [LogInfo " generating static routes "])
                (fsOps w) (pageNames w) (arrays w) (ext w))
       (snd (generatePages node C result opts I map w)).
Proof.
  intros Hin Hthrow.
  unfold generatePages, loadRenderers, bind, info, log, liftResult.
  match goal with
  | |- context [mapM _ _ ?w0] =>
      destruct (settled_renderers (astroConfig opts)
                  (ctx_renderers (astroConfig opts)) w0)
        as (promises & Hok & Hsame & _ & Hfail)
  end.
  destruct (mapM _ _ _) as [[rs|e0] w1]; cbn [fst snd] in *;
    [|discriminate].
  injection Hok as ->.
  destruct (Hfail r e Hin Hthrow) as [e' ->].
  split; [now exists e'|exact Hsame].
Qed.

(** X24: a page whose compiled module cannot be imported is fatal.
    [generatePage] ends with the error of the import; nothing is
    logged for the page, no path is started, nothing is written. *)
Theorem generatePage_import_fails output opts I map rs (w : World Sigma)
  outRoot url facadeId data e s :
  getOutRoot C (astroConfig opts) = Ok outRoot ->
  newURL C ("./" ++ fileName output)%string outRoot = Ok url ->
  facadeModuleId output = Some facadeId ->
  getByFacadeId facadeId map = Some data ->
  importPage C url (ext w) = (Throw e, s) ->
  fst (generatePage node C output opts I map rs w) = Throw e
  /\ logs (snd (generatePage node C output opts I map rs w)) = logs w
  /\ fsOps (snd (generatePage node C output opts I map rs w)) = fsOps w
  /\ pageNames (snd (generatePage node C output opts I map rs w))
     = pageNames w.
Proof.
  intros Hroot Hurl Hf Hdata Himport.
  unfold generatePage, bind, liftResult.
  rewrite Hroot, Hurl, Hf, Hdata.
  destruct (getByFacadeId facadeId (facadeIdToAssetsMap I)) as [ids|];
    unfold ret, newArray, liftExt; cbn [ext]; rewrite Himport;
    now repeat split.
Qed.

End RunFacts.

(** ** The further properties on the concrete project *)

Module RunWitnesses.
Import Fixtures Scenarios.

Lemma generatePath_redirect_witness :
  route_type (route (pageData (pathOptions indexPage))) = page
  /\ elementSets redirecting opts (pathOptions indexPage)
       (rev (deref (linkIds (pathOptions indexPage)) world0))
     = Ok ([linkElement "b.css"; linkElement "a.css"], [])
  /\ render redirecting
       (renderOptions Posix.node "/about" opts (pathOptions indexPage)
          [linkElement "b.css"; linkElement "a.css"] [])
       (ext world0)
     = (Ok RenderResponse, 1)
  /\ generatePath Posix.node redirecting "/about" opts
       (pathOptions indexPage) world0
     = (Ok tt,
        mkWorld [LogDebug "build" "Generating: /about"] [] ["about/"]
                [["b.css"; "a.css"]] 1).
Proof.
  split; [reflexivity|]. split; [reflexivity|]. split; [reflexivity|].
  exact (generatePath_redirect nat unit unit Posix.node redirecting
           "/about" opts (pathOptions indexPage) world0
           [linkElement "b.css"; linkElement "a.css"] [] 1
           eq_refl eq_refl eq_refl).
Defined.

Lemma generatePath_page_written_witness :
  route_type (route (pageData (pathOptions indexPage))) = page
  /\ elementSets allGood opts (pathOptions indexPage)
       (rev (deref (linkIds (pathOptions indexPage)) world0))
     = Ok ([linkElement "b.css"; linkElement "a.css"], [])
  /\ render allGood
       (renderOptions Posix.node "/about" opts (pathOptions indexPage)
          [linkElement "b.css"; linkElement "a.css"] [])
       (ext world0)
     = (Ok (RenderHtml "<html></html>"), 1)
  /\ getOutFolder allGood (astroConfig opts) "/about" page
     = Ok "/proj/dist/about"
  /\ getOutFile allGood (astroConfig opts) "/proj/dist/about" "/about" page
     = Ok "/proj/dist/about/index.html"
  /\ fs_mkdir allGood "/proj/dist/about" 1 = (Ok tt, 2)
  /\ fs_writeFile allGood "/proj/dist/about/index.html" "<html></html>" 2
     = (Ok tt, 3)
  /\ generatePath Posix.node allGood "/about" opts (pathOptions indexPage)
       world0
     = (Ok tt,
        mkWorld [LogDebug "build" "Generating: /about"]
                [Mkdir "/proj/dist/about";
                 WriteFile "/proj/dist/about/index.html" "<html></html>"]
                ["about/"] [["b.css"; "a.css"]] 3).
Proof.
  repeat (split; [reflexivity|]).
  exact (generatePath_page_written nat unit unit Posix.node allGood
           "/about" opts (pathOptions indexPage) world0
           [linkElement "b.css"; linkElement "a.css"] [] "<html></html>"
           "/proj/dist/about" "/proj/dist/about/index.html" 1 2 3
           eq_refl eq_refl eq_refl eq_refl eq_refl eq_refl eq_refl).
Defined.

Lemma generatePath_endpoint_written_witness :
  route_type (route (pageData (pathOptions apiPage))) = endpoint
  /\ elementSets allGood opts (pathOptions apiPage)
       (rev (deref (linkIds (pathOptions apiPage)) world0))
     = Ok ([linkElement "b.css"; linkElement "a.css"], [])
  /\ callEndpoint allGood (mod_ (pathOptions apiPage))
       (renderOptions Posix.node "/api.json" opts (pathOptions apiPage)
          [linkElement "b.css"; linkElement "a.css"] [])
       (ext world0)
     = (Ok (EndpointSimple "{}"), 1)
  /\ getOutFolder allGood (astroConfig opts) "/api.json" endpoint
     = Ok "/proj/dist/api.json"
  /\ getOutFile allGood (astroConfig opts) "/proj/dist/api.json"
       "/api.json" endpoint
     = Ok "/proj/dist/api.json/index.html"
  /\ fs_mkdir allGood "/proj/dist/api.json" 1 = (Ok tt, 2)
  /\ fs_writeFile allGood "/proj/dist/api.json/index.html" "{}" 2
     = (Ok tt, 3)
  /\ generatePath Posix.node allGood "/api.json" opts (pathOptions apiPage)
       world0
     = (Ok tt,
        mkWorld [LogDebug "build" "Generating: /api.json"]
                [Mkdir "/proj/dist/api.json";
                 WriteFile "/proj/dist/api.json/index.html" "{}"]
                [] [["b.css"; "a.css"]] 3).
Proof.
  repeat (split; [reflexivity|]).
  exact (generatePath_endpoint_written nat unit unit Posix.node allGood
           "/api.json" opts (pathOptions apiPage) world0
           [linkElement "b.css"; linkElement "a.css"] [] "{}"
           "/proj/dist/api.json" "/proj/dist/api.json/index.html" 1 2 3
           eq_refl eq_refl eq_refl eq_refl eq_refl eq_refl eq_refl).
Defined.

Lemma generatePath_mkdir_fails_witness :
  route_type (route (pageData (pathOptions indexPage))) = page
  /\ elementSets readOnlyDisk opts (pathOptions indexPage)
       (rev (deref (linkIds (pathOptions indexPage)) world0))
     = Ok ([linkElement "b.css"; linkElement "a.css"], [])
  /\ render readOnlyDisk
       (renderOptions Posix.node "/about" opts (pathOptions indexPage)
          [linkElement "b.css"; linkElement "a.css"] [])
       (ext world0)
     = (Ok (RenderHtml "<html></html>"), 1)
  /\ getOutFolder readOnlyDisk (astroConfig opts) "/about" page
     = Ok "/proj/dist/about"
  /\ getOutFile readOnlyDisk (astroConfig opts) "/proj/dist/about" "/about"
       page
     = Ok "/proj/dist/about/index.html"
  /\ fs_mkdir readOnlyDisk "/proj/dist/about" 1
     = (Throw (Error "EACCES: permission denied, mkdir"), 2)
  /\ generatePath Posix.node readOnlyDisk "/about" opts
       (pathOptions indexPage) world0
     = (Ok tt,
        mkWorld [LogDebug "build" "Generating: /about";
                 LogError "build" "Error rendering:"
                   (Error "EACCES: permission denied, mkdir")]
                [] ["about/"] [["b.css"; "a.css"]] 2).
Proof.
  repeat (split; [reflexivity|]).
  exact (generatePath_mkdir_fails nat unit unit Posix.node readOnlyDisk
           "/about" opts (pathOptions indexPage) world0
           [linkElement "b.css"; linkElement "a.css"] [] "<html></html>"
           "/proj/dist/about" "/proj/dist/about/index.html"
           (Error "EACCES: permission denied, mkdir") 1 2
           eq_refl eq_refl eq_refl eq_refl eq_refl eq_refl).
Defined.

Lemma generatePage_all_paths_started_witness :
  (forall ids, exists links,
     createLinkStylesheetElementSet allGood ids
       (buildOptions_site (astroConfig opts)) = Ok links)
  /\ (forall ids, exists scripts,
        createModuleScriptElementWithSrcSet allGood ids
          (buildOptions_site (astroConfig opts)) = Ok scripts)
  /\ getOutRoot allGood (astroConfig opts) = Ok "file:///proj/dist/"
  /\ newURL allGood ("./" ++ fileName indexChunk)%string "file:///proj/dist/"
     = Ok "file:///proj/dist/./index.js"
  /\ facadeModuleId indexChunk = Some "/proj/src/pages/index.astro"
  /\ getByFacadeId "/proj/src/pages/index.astro" forwardKeyMap
     = Some indexPage
  /\ importPage allGood "file:///proj/dist/./index.js" (ext world0)
     = (Ok tt, 1)
  /\ fst (generatePage Posix.node allGood indexChunk opts siteInternals
            forwardKeyMap [] world0) = Ok tt
  /\ pageNames (snd (generatePage Posix.node allGood indexChunk opts
                       siteInternals forwardKeyMap [] world0))
     = pageNames world0
       ++ match route_type (route indexPage) with
          | page =>
              List.map (fun p => withoutLeadingSlash (withTrailingSlash p))
                       (paths indexPage)
          | endpoint => []
          end.
Proof.
  split; [intros ids; eexists; reflexivity|].
  split; [intros ids; eexists; reflexivity|].
  do 5 (split; [reflexivity|]).
  exact (generatePage_all_paths_started nat unit unit Posix.node allGood
           indexChunk opts siteInternals forwardKeyMap [] world0
           "file:///proj/dist/" "file:///proj/dist/./index.js"
           "/proj/src/pages/index.astro" indexPage tt 1
           (fun ids => ex_intro _ _ eq_refl)
           (fun ids => ex_intro _ _ eq_refl)
           eq_refl eq_refl eq_refl eq_refl eq_refl).
Defined.

Lemma loadRenderers_one_per_renderer_witness :
  loadRenderers allGood richConfig world0
  = (Ok [mkLoadedRenderer reactRenderer tt;
         mkLoadedRenderer svelteRenderer tt],
     mkWorld [] [] [] [["a.css"; "b.css"]] 2)
  /\ List.map (renderer unit)
       [mkLoadedRenderer reactRenderer tt; mkLoadedRenderer svelteRenderer tt]
     = ctx_renderers richConfig.
Proof.
  split; [reflexivity|].
  exact (loadRenderers_one_per_renderer nat unit unit allGood richConfig
           world0
           [mkLoadedRenderer reactRenderer tt;
            mkLoadedRenderer svelteRenderer tt]
           (mkWorld [] [] [] [["a.css"; "b.css"]] 2) eq_refl).
Defined.

Lemma generatePages_renderer_unresolved_witness :
  In svelteRenderer (ctx_renderers (astroConfig richOpts))
  /\ resolveDependency missingRenderer (serverEntrypoint svelteRenderer)
       (astroConfig richOpts)
     = Throw (Error "Cannot find module")
  /\ (exists e',
        fst (generatePages Posix.node missingRenderer [indexChunk] richOpts
               siteInternals forwardKeyMap world0) = Throw e')
  /\ sameButExt
       (mkWorld (logs world0 ++ [LogInfo " generating static routes "])
                (fsOps world0) (pageNames world0) (arrays world0)
                (ext world0))
       (snd (generatePages Posix.node missingRenderer [indexChunk] richOpts
               siteInternals forwardKeyMap world0)).
Proof.
  split; [right; left; reflexivity|]. split; [reflexivity|].
  exact (generatePages_renderer_unresolved nat unit unit Posix.node
           missingRenderer [indexChunk] richOpts siteInternals forwardKeyMap
           world0 svelteRenderer (Error "Cannot find module")
           (or_intror (or_introl eq_refl)) eq_refl).
Defined.

Lemma generatePage_import_fails_witness :
  getOutRoot brokenPage (astroConfig opts) = Ok "file:///proj/dist/"
  /\ newURL brokenPage ("./" ++ fileName indexChunk)%string
       "file:///proj/dist/"
     = Ok "file:///proj/dist/./index.js"
  /\ facadeModuleId indexChunk = Some "/proj/src/pages/index.astro"
  /\ getByFacadeId "/proj/src/pages/index.astro" forwardKeyMap
     = Some indexPage
  /\ importPage brokenPage "file:///proj/dist/./index.js" (ext world0)
     = (Throw (Error "SyntaxError: Unexpected token"), 1)
  /\ fst (generatePage Posix.node brokenPage indexChunk opts siteInternals
            forwardKeyMap [] world0)
     = Throw (Error "SyntaxError: Unexpected token")
  /\ logs (snd (generatePage Posix.node brokenPage indexChunk opts
                  siteInternals forwardKeyMap [] world0)) = logs world0
  /\ fsOps (snd (generatePage Posix.node brokenPage indexChunk opts
                   siteInternals forwardKeyMap [] world0)) = fsOps world0
  /\ pageNames (snd (generatePage Posix.node brokenPage indexChunk opts
                       siteInternals forwardKeyMap [] world0))
     = pageNames world0.
Proof.
  do 5 (split; [reflexivity|]).
  exact (generatePage_import_fails nat unit unit Posix.node brokenPage
           indexChunk opts siteInternals forwardKeyMap [] world0
           "file:///proj/dist/" "file:///proj/dist/./index.js"
           "/proj/src/pages/index.astro" indexPage
           (Error "SyntaxError: Unexpected token") 1
           eq_refl eq_refl eq_refl eq_refl eq_refl).
Defined.


Lemma generateBatch_first_path_fails_witness :
  elementSets collaborators (mkBuildOptions badSiteConfig "")
    (pathOptions indexPage)
    (rev (deref (linkIds (pathOptions indexPage)) world))
  = Throw (Error "TypeError: Invalid URL")
  /\ fst (generateBatch Posix.node collaborators
            (mkBuildOptions badSiteConfig "") (pathOptions indexPage)
            ("/" :: ["/about"]) world)
     = Throw (Error "TypeError: Invalid URL")
  /\ pageNames (snd (generateBatch Posix.node collaborators
                       (mkBuildOptions badSiteConfig "")
                       (pathOptions indexPage) ("/" :: ["/about"]) world))
     = match route_type (route (pageData (pathOptions indexPage))) with
       | page =>
           pageNames world
           ++ List.map (fun p => withoutLeadingSlash (withTrailingSlash p))
                       ("/" :: ["/about"])
       | endpoint => pageNames world
       end.
Proof.
  split; [reflexivity|].
  exact (generateBatch_first_path_fails unit unit unit Posix.node
           collaborators (mkBuildOptions badSiteConfig "")
           (pathOptions indexPage) "/" ["/about"] world
           (Error "TypeError: Invalid URL") eq_refl).
Defined.

(** The injected scripts of the rich configuration as a page gets
    them. *)
Example elementSets_injected_scripts :
  elementSets allGood richOpts (pathOptions indexPage) ["b.css"; "a.css"]
  = Ok ([linkElement "b.css"; linkElement "a.css"],
        [mkElement [] "window.a = 1"; mkElement [] "window.b = 2"]).
Proof. reflexivity. Qed.

End RunWitnesses.
